(** * Forshare client: session state machine and synchronisation protocol

    A shallow embedding of the two observed variants of the client's
    [App] component:

    - the attachment-aware variant ([syncPayload] sends a JSON document,
      edits are pushed on an explicit save), modelled at top level;
    - the minimal variant ([syncPayload] sends the bare text on every
      edit), modelled in [Module Minimal].

    JavaScript strings are sequences of UTF-16 code units; a code unit is
    kept as an [N].  The two built-ins whose full behaviour lies outside
    a shallow embedding are taken as section variables: the numeric value
    of a JSON number literal together with its printed form (IEEE doubles),
    and the Unicode upper-case mapping of code points outside ASCII. *)

From Stdlib Require Import Arith NArith List Bool Lia String Ascii.
Import ListNotations.
Open Scope N_scope.

(* ================================================================== *)
(** ** Strings *)

Definition code_unit := N.
Definition jsstring := list code_unit.

(** An ASCII literal as a JS string. *)
Definition lit (s : string) : jsstring :=
  map N_of_ascii (list_ascii_of_string s).

Fixpoint jsstring_eqb (a b : jsstring) : bool :=
  match a, b with
  | [], [] => true
  | x :: a', y :: b' => (x =? y) && jsstring_eqb a' b'
  | _, _ => false
  end.

(** [!s] for a string: only the empty string is falsy. *)
Definition falsy (s : jsstring) : bool :=
  match s with [] => true | _ => false end.

Definition is_digit (c : code_unit) : bool := (48 <=? c) && (c <=? 57).
Definition is_upper (c : code_unit) : bool := (65 <=? c) && (c <=? 90).
Definition is_lower (c : code_unit) : bool := (97 <=? c) && (c <=? 122).

(** Surrogate halves. *)
Definition is_high (c : code_unit) : bool := (55296 <=? c) && (c <=? 56319).
Definition is_low (c : code_unit) : bool := (56320 <=? c) && (c <=? 57343).

(** [s.slice(0, n)] for [n >= 0]. *)
Definition slice0 (n : nat) (s : jsstring) : jsstring := firstn n s.

(** [s.startsWith(p)]. *)
Fixpoint startsWith (p s : jsstring) : bool :=
  match p, s with
  | [], _ => true
  | x :: p', y :: s' => (x =? y) && startsWith p' s'
  | _ :: _, [] => false
  end.

(** The class [[A-Z0-9]] of the normalisation regex. *)
Definition is_code_char (c : code_unit) : bool := is_upper c || is_digit c.

(** [s.replace(/[^A-Z0-9]/g, '')]. *)
Definition strip_non_code (s : jsstring) : jsstring := filter is_code_char s.

(** ECMAScript WhiteSpace and LineTerminator code units, as removed by
    [String.prototype.trim]. *)
Definition is_js_space (c : code_unit) : bool :=
  ((9 <=? c) && (c <=? 13)) || (c =? 32) || (c =? 160) || (c =? 5760)
  || ((8192 <=? c) && (c <=? 8202)) || (c =? 8232) || (c =? 8233)
  || (c =? 8239) || (c =? 8287) || (c =? 12288) || (c =? 65279).

Fixpoint trim_start (s : jsstring) : jsstring :=
  match s with
  | c :: t => if is_js_space c then trim_start t else s
  | [] => []
  end.

Definition trim (s : jsstring) : jsstring :=
  rev (trim_start (rev (trim_start s))).

Section UpperCase.

(** [toUpperCase] of one code point outside ASCII, given by its code
    unit(s); the result may be longer than the argument and may contain
    ASCII letters (U+00DF gives [SS]). *)
Variable upperNonAscii : jsstring -> jsstring.

(** [toUpperCase] walks the string by code points: an ASCII code unit is
    mapped on the spot, a surrogate pair is one code point. *)
Fixpoint toUpperCase (s : jsstring) : jsstring :=
  match s with
  | [] => []
  | c :: t =>
      if c <? 128 then (if is_lower c then c - 32 else c) :: toUpperCase t
      else
        match t with
        | d :: t' =>
            if is_high c && is_low d
            then upperNonAscii [c; d] ++ toUpperCase t'
            else upperNonAscii [c] ++ toUpperCase t
        | [] => upperNonAscii [c]
        end
  end.

End UpperCase.

(* ================================================================== *)
(** ** Handlers as state transformers with exceptions and effects *)

(** What can be thrown: the two built-in errors handlers can meet, and
    an [Error] constructed by the client itself or a rejected request. *)
Inductive exn : Type := SyntaxError | TypeError | OtherError.

(** A selected [File]: the three properties the client reads. *)
Record File : Type := { fsize : N; fname : jsstring; ftype : jsstring }.

(** A channel is identified by the room it was opened for. *)
Definition socket := jsstring.

(** What a handler does to the outside world, in order. *)
Inductive effect : Type :=
| Connect (room : jsstring)        (* [io(SHARE_SERVER, {query: {roomCode}})] *)
| Disconnect (sock : socket)       (* [socket.disconnect()] *)
| Emit (sock : socket) (ev payload : jsstring) (* [socket.emit(ev, payload)] *)
| Alert (msg : string)
| SetTimeout (ms : N)
| ClearTimeout
| ReadAsDataURL (f : File)
| ResetInput.                      (* [event.target.value = ''] *)

(** A computation over a store [S]: it always leaves a store and an
    effect log, and either returns or throws.  What was written before a
    throw stays written. *)
Definition M (S A : Type) : Type :=
  S * list effect -> (S * list effect) * (A + exn).

Definition ret {S A} (a : A) : M S A := fun w => (w, inl a).
Definition raise {S A} (e : exn) : M S A := fun w => (w, inr e).

Definition bind {S A B} (m : M S A) (k : A -> M S B) : M S B :=
  fun w => match m w with
           | (w', inl a) => k a w'
           | (w', inr e) => (w', inr e)
           end.

Notation "x <- m ;; k" := (bind m (fun x => k))
  (at level 61, m at next level, right associativity).
Notation "m ;; k" := (bind m (fun _ => k))
  (at level 61, right associativity).

(** [try { m } catch (_) { h }]. *)
Definition try_catch {S A} (m : M S A) (h : exn -> M S A) : M S A :=
  fun w => match m w with
           | (w', inl a) => (w', inl a)
           | (w', inr e) => h e w'
           end.

(** [try { m } finally { f }]: [f] runs either way; the outcome is the
    one of [m] unless [f] itself throws. *)
Definition try_finally {S A} (m : M S A) (f : M S unit) : M S A :=
  fun w => match m w with
           | (w', r) => match f w' with
                        | (w'', inl _) => (w'', r)
                        | (w'', inr e) => (w'', inr e)
                        end
           end.

Definition modify {S} (f : S -> S) : M S unit :=
  fun w => ((f (fst w), snd w), inl tt).
Definition perform {S} (e : effect) : M S unit :=
  fun w => ((fst w, snd w ++ [e]), inl tt).
Definition read {S A} (f : S -> A) : M S A :=
  fun w => (w, inl (f (fst w))).

(** A handler run on the committed state [s]: the store afterwards, what
    it did, and how it ended. *)
Definition exec {S A} (m : M S A) (s : S) : (S * list effect) * (A + exn) :=
  m (s, []).
Definition state_after {S A} (m : M S A) (s : S) : S := fst (fst (exec m s)).
Definition effects_of {S A} (m : M S A) (s : S) : list effect :=
  snd (fst (exec m s)).
Definition outcome {S A} (m : M S A) (s : S) : A + exn := snd (exec m s).

(** The payloads handed to [socket.emit] among some effects. *)
Fixpoint emitted (l : list effect) : list jsstring :=
  match l with
  | [] => []
  | Emit _ _ p :: l' => p :: emitted l'
  | _ :: l' => emitted l'
  end.

Inductive Mode : Type := local | remote.
Inductive Status : Type :=
  idle | waiting | connecting | connected | disconnected | error.

Definition Status_eqb (a b : Status) : bool :=
  match a, b with
  | idle, idle | waiting, waiting | connecting, connecting
  | connected, connected | disconnected, disconnected | error, error => true
  | _, _ => false
  end.

Definition LOCAL_ROOM : jsstring := lit "LOCAL-NET".
Definition MAX_FILE_SIZE : N := 5 * 1024 * 1024.

(** What an inbound [sync-data] event carries. *)
Inductive payload : Type :=
| PString (s : jsstring)
| PNonString.

(** The build's environment: a variable is a string when it is set. *)
Record Env : Type := {
  VITE_SHARE_SERVER : option jsstring;
  VITE_SHARE_SERVER_PORT : option jsstring
}.

(** [window.location], as far as the client reads it. *)
Record Location : Type := {
  protocol : jsstring;
  hostname : jsstring;
  port : jsstring
}.

(* ================================================================== *)
(** ** The minimal variant: bare text, pushed on every edit *)

Module Minimal.

(** The component's state and its channel ref ([theme], [copied] and
    the sidebar flag are presentation only and left out). *)
Record State : Type := {
  mode : Mode;
  text : jsstring;
  sessionCode : jsstring;
  manualCode : jsstring;
  status : Status;
  isGenerating : bool;
  socketRef : option socket
}.

Definition initial : State :=
  {| mode := local; text := []; sessionCode := []; manualCode := [];
     status := idle; isGenerating := false; socketRef := None |}.

Definition set_mode (v : Mode) (s : State) : State :=
  {| mode := v; text := text s; sessionCode := sessionCode s; manualCode :=
     manualCode s; status := status s; isGenerating := isGenerating s;
     socketRef := socketRef s |}.
Definition set_text (v : jsstring) (s : State) : State :=
  {| mode := mode s; text := v; sessionCode := sessionCode s; manualCode :=
     manualCode s; status := status s; isGenerating := isGenerating s;
     socketRef := socketRef s |}.
Definition set_sessionCode (v : jsstring) (s : State) : State :=
  {| mode := mode s; text := text s; sessionCode := v; manualCode :=
     manualCode s; status := status s; isGenerating := isGenerating s;
     socketRef := socketRef s |}.
Definition set_manualCode (v : jsstring) (s : State) : State :=
  {| mode := mode s; text := text s; sessionCode := sessionCode s;
     manualCode := v; status := status s; isGenerating := isGenerating s;
     socketRef := socketRef s |}.
Definition set_status (v : Status) (s : State) : State :=
  {| mode := mode s; text := text s; sessionCode := sessionCode s;
     manualCode := manualCode s; status := v; isGenerating := isGenerating
     s; socketRef := socketRef s |}.
Definition set_isGenerating (v : bool) (s : State) : State :=
  {| mode := mode s; text := text s; sessionCode := sessionCode s;
     manualCode := manualCode s; status := status s; isGenerating := v;
     socketRef := socketRef s |}.
Definition set_socketRef (v : option socket) (s : State) : State :=
  {| mode := mode s; text := text s; sessionCode := sessionCode s;
     manualCode := manualCode s; status := status s; isGenerating :=
     isGenerating s; socketRef := v |}.

Definition roomCode (s : State) : jsstring :=
  match mode s with local => LOCAL_ROOM | remote => sessionCode s end.

Definition syncPayload (nextTextValue : jsstring) : M State unit :=
  sock <- read socketRef ;;
  match sock with
  | Some k => perform (Emit k (lit "update-data") nextTextValue)
  | None => ret tt
  end.

(** The effect keyed on [roomCode], and the cleanup it returns when it
    opened a channel. *)
Definition roomEffect (room : jsstring) : M State unit :=
  if falsy room then
    modify (set_status waiting) ;;
    sock <- read socketRef ;;
    match sock with
    | Some k => perform (Disconnect k) ;; modify (set_socketRef None)
    | None => ret tt
    end
  else
    modify (set_status connecting) ;;
    perform (Connect room) ;;
    modify (set_socketRef (Some room)).

Definition roomCleanup (room : jsstring) : M State unit :=
  if falsy room then ret tt
  else perform (Disconnect room) ;; modify (set_socketRef None).

(** [socket.on('sync-data', content => setText(content || ''))]; an
    absent payload is [None]. *)
Definition onSyncData (content : option jsstring) : M State unit :=
  modify (set_text (match content with Some c => c | None => [] end)).

Definition handleTextChange (value : jsstring) : M State unit :=
  modify (set_text value) ;;
  syncPayload value.

Section Join.

Variable upperNonAscii : jsstring -> jsstring.

Definition joinSession (code : jsstring) : M State unit :=
  let normalizedCode := toUpperCase upperNonAscii (trim code) in
  if falsy normalizedCode then ret tt
  else modify (set_sessionCode normalizedCode) ;; modify (set_mode remote).

End Join.

(** The state once the component is mounted: the first run of the
    effect. *)
Definition mounted : State :=
  state_after (roomEffect (roomCode initial)) initial.

(** *** Reactions of the minimal variant *)

(** The End Session button. *)
Definition endSession : M State unit :=
  modify (set_sessionCode []) ;;
  modify (set_mode local).

Section System.

Variable upperNonAscii : jsstring -> jsstring.

(** The channel's events and the controls that work on strings.
    [createRemoteSession] is not among them: it stores the [code] member
    of the session service's answer as it comes, of whatever type, which
    the string-typed state above does not hold. *)
Inductive event : Type :=
| EvConnect                        (* the bound channel's [connect] *)
| EvDisconnect                     (* its [disconnect] *)
| EvConnectError                   (* its [connect_error] *)
| EvSyncData (content : option jsstring)
| EvTextChange (value : jsstring)
| EvManualCode (value : jsstring)  (* the code input's [onChange] *)
| EvJoin                           (* the Join button, the Enter key *)
| EvSetMode (m : Mode)             (* the mode buttons and links *)
| EvEndSession.

(** The handler an event runs, given the committed render [r]. *)
Definition handler (ev : event) (r : State) : M State unit :=
  match ev with
  | EvConnect => modify (set_status connected)
  | EvDisconnect => modify (set_status disconnected)
  | EvConnectError => modify (set_status error)
  | EvSyncData content => onSyncData content
  | EvTextChange value => handleTextChange value
  | EvManualCode value => modify (set_manualCode value)
  | EvJoin => joinSession upperNonAscii (manualCode r)
  | EvSetMode m => modify (set_mode m)
  | EvEndSession => endSession
  end.

(** After the handler's updates are committed, the effect runs again if
    [roomCode] changed: first the previous run's cleanup. *)
Definition rerunEffect (before : State) : M State unit :=
  now <- read roomCode ;;
  if jsstring_eqb (roomCode before) now then ret tt
  else roomCleanup (roomCode before) ;; roomEffect now.

Definition dispatch (ev : event) (s : State) : M State unit :=
  handler ev s ;; rerunEffect s.

Definition step_state (s : State) (ev : event) : State :=
  state_after (dispatch ev s) s.



End System.

(** *** The sharing server *)

(** [SHARE_SERVER], with [||] for the port. *)
Definition SHARE_SERVER (env : Env) (window : option Location) : jsstring :=
  match VITE_SHARE_SERVER env with
  | Some (c :: u) => c :: u
  | _ =>
      match window with
      | Some w =>
          protocol w ++ lit "//" ++ hostname w ++ lit ":"
          ++ match VITE_SHARE_SERVER_PORT env with
             | Some (c :: p) => c :: p
             | _ => lit "4000"
             end
      | None => lit "http://localhost:4000"
      end
  end.

End Minimal.

(* ================================================================== *)
(** ** The sharing server of the attachment-aware variant *)

(** [SHARE_SERVER], with [??] for the port: [window] is [None] where
    there is no [window]. *)
Definition SHARE_SERVER (env : Env) (window : option Location) : jsstring :=
  match VITE_SHARE_SERVER env with
  | Some (c :: u) => c :: u
  | _ =>
      match window with
      | Some w =>
          protocol w ++ lit "//" ++ hostname w ++ lit ":"
          ++ match VITE_SHARE_SERVER_PORT env with
             | Some p => p
             | None => lit "4000"
             end
      | None => lit "http://localhost:4000"
      end
  end.

(* ================================================================== *)
(** ** A runtime for closed runs *)

(** Closed examples need some runtime.  In this one a Number stands for
    the literal it was read from and no code point outside ASCII has an
    upper-case form; none of the runs below meets a number or a
    character outside ASCII. *)
Definition literal_number : Type := jsstring.
Definition literal_value (l : jsstring) : literal_number := l.
Definition literal_text (n : literal_number) : jsstring := n.
Definition no_upper (cp : jsstring) : jsstring := cp.

(** A 6 MiB video. *)
Definition six_mebibytes : File :=
  {| fsize := 6 * 1024 * 1024; fname := lit "clip.mp4";
     ftype := lit "video/mp4" |}.

(** An image of exactly 5 MiB. *)
Definition five_mebibytes : File :=
  {| fsize := 5 * 1024 * 1024; fname := lit "photo.png";
     ftype := lit "image/png" |}.

(* ================================================================== *)
(** ** The runtime: JSON *)

Section Runtime.

(** The Number type, the value of a JSON number literal and the text
    [JSON.stringify] prints for a Number. *)
Variable number : Type.
Variable StringToNumber : jsstring -> number.
Variable NumberToString : number -> jsstring.

(** The upper-case mapping outside ASCII, see [toUpperCase]. *)
Variable upperNonAscii : jsstring -> jsstring.


(** *** JSON values *)

#[warnings="-register-all"]
Inductive json : Type :=
| JNull
| JBool (b : bool)
| JNum (n : number)
| JStr (s : jsstring)
| JArr (l : list json)
| JObj (o : list (jsstring * json)).

(** An object is its own properties in property order. *)
Definition object := list (jsstring * json).

(** [UnicodeEscape]: a backslash, [u] and four lower-case hex digits. *)
Definition hex_digit (d : N) : code_unit :=
  if d <? 10 then 48 + d else 87 + d.

Definition UnicodeEscape (c : code_unit) : jsstring :=
  [92; 117; hex_digit (c / 4096 mod 16); hex_digit (c / 256 mod 16);
   hex_digit (c / 16 mod 16); hex_digit (c mod 16)].

(** One code unit of [QuoteJSONString] that is not the first half of a
    surrogate pair. *)
Definition quote_unit (c : code_unit) : jsstring :=
  if c =? 8 then [92; 98]
  else if c =? 9 then [92; 116]
  else if c =? 10 then [92; 110]
  else if c =? 12 then [92; 102]
  else if c =? 13 then [92; 114]
  else if c =? 34 then [92; 34]
  else if c =? 92 then [92; 92]
  else if (c <? 32) || is_high c || is_low c then UnicodeEscape c
  else [c].

Fixpoint quote_body (s : jsstring) : jsstring :=
  match s with
  | [] => []
  | c :: t =>
      if is_high c then
        match t with
        | d :: t' =>
            if is_low d then c :: d :: quote_body t'
            else UnicodeEscape c ++ quote_body t
        | [] => UnicodeEscape c
        end
      else quote_unit c ++ quote_body t
  end.

Definition QuoteJSONString (s : jsstring) : jsstring :=
  34 :: quote_body s ++ [34].

Fixpoint join_comma (parts : list jsstring) : jsstring :=
  match parts with
  | [] => []
  | [p] => p
  | p :: rest => p ++ 44 :: join_comma rest
  end.

(** [JSON.stringify(v)] without replacer or indentation. *)
Fixpoint stringify (v : json) : jsstring :=
  match v with
  | JNull => lit "null"
  | JBool true => lit "true"
  | JBool false => lit "false"
  | JNum n => NumberToString n
  | JStr s => QuoteJSONString s
  | JArr l => 91 :: join_comma (map stringify l) ++ [93]
  | JObj o =>
      123 :: join_comma
               (map (fun kv => let '(k, x) := kv in
                               QuoteJSONString k ++ 58 :: stringify x) o)
          ++ [125]
  end.

(** *** Objects: [CreateDataProperty] and property lookup *)

(** A key is an array index when it is the canonical decimal spelling of
    an integer below [2^32 - 1]; such keys come first, in ascending
    order, in the property order of an ordinary object. *)
Fixpoint decimal_value (acc : N) (s : jsstring) : option N :=
  match s with
  | [] => Some acc
  | c :: t => if is_digit c then decimal_value (10 * acc + (c - 48)) t else None
  end.

Definition array_index (k : jsstring) : option N :=
  match k with
  | [] => None
  | [48] => Some 0
  | c :: _ =>
      if c =? 48 then None
      else match decimal_value 0 k with
           | Some i => if i <? 4294967295 then Some i else None
           | None => None
           end
  end.

Fixpoint has_key (k : jsstring) (o : object) : bool :=
  match o with
  | [] => false
  | (k', _) :: o' => jsstring_eqb k k' || has_key k o'
  end.

Fixpoint replace_value (k : jsstring) (v : json) (o : object) : object :=
  match o with
  | [] => []
  | (k', v') :: o' =>
      if jsstring_eqb k k' then (k', v) :: o'
      else (k', v') :: replace_value k v o'
  end.

(** Where a new index key [i] goes: before the first property that is not
    an index or is a larger index. *)
Fixpoint insert_index (i : N) (k : jsstring) (v : json) (o : object) : object :=
  match o with
  | [] => [(k, v)]
  | (k', v') :: o' =>
      match array_index k' with
      | Some j => if j <? i then (k', v') :: insert_index i k v o'
                  else (k, v) :: o
      | None => (k, v) :: o
      end
  end.

(** [CreateDataProperty(o, k, v)] on an ordinary object. *)
Definition obj_set (k : jsstring) (v : json) (o : object) : object :=
  if has_key k o then replace_value k v o
  else match array_index k with
       | Some i => insert_index i k v o
       | None => o ++ [(k, v)]
       end.

Fixpoint obj_get (k : jsstring) (o : object) : option json :=
  match o with
  | [] => None
  | (k', v) :: o' => if jsstring_eqb k k' then Some v else obj_get k o'
  end.

(** *** [JSON.parse] as a pushdown automaton over code units *)

Inductive token : Type :=
| TOpenObj | TCloseObj | TOpenArr | TCloseArr | TColon | TComma
| TScalar (v : json).

(** States of the number recogniser: an optional minus, then zero or a
    digit string without leading zero, then an optional fraction (a dot
    and at least one digit), then an optional exponent (e or E, an
    optional sign, at least one digit). *)
Inductive num_state : Type :=
| NMinus | NZero | NInt | NDot | NFrac | NExp | NExpSign | NExpDigits.

Inductive lex_mode : Type :=
| LDefault
| LString (acc : jsstring)                 (* contents so far, reversed *)
| LEscape (acc : jsstring)                 (* after a backslash *)
| LUnicode (acc : jsstring) (v : N) (k : nat) (* [S k] hex digits to go *)
| LNumber (st : num_state) (acc : jsstring) (* literal so far, reversed *)
| LLiteral (rest : jsstring) (v : json).   (* inside true, false, null *)

(** An open container: the elements read so far (reversed), or the
    properties created so far with the key whose value is awaited. *)
Inductive frame : Type :=
| FArr (acc : list json)
| FObj (o : object) (k : jsstring).

Inductive expect : Type :=
| EValue          (* a value: start of text, after [,] in an array, after [:] *)
| EFirstElem      (* after [[]: a value or []] *)
| EFirstKey       (* after [{]: a key or [}] *)
| EKey            (* after [,] in an object: a key *)
| EColon          (* after a key *)
| ENext           (* after a value in a container: [,] or the closer *)
| EDone (v : json). (* the text's value is complete *)

Definition pstate : Type := (list frame * expect)%type.

(** A complete value goes to the innermost open container. *)
Definition reduce (v : json) (stk : list frame) : pstate :=
  match stk with
  | [] => ([], EDone v)
  | FArr acc :: stk' => (FArr (v :: acc) :: stk', ENext)
  | FObj o k :: stk' => (FObj (obj_set k v o) k :: stk', ENext)
  end.

Definition feed_value (t : token) (first : bool) (stk : list frame)
  : option pstate :=
  match t with
  | TScalar v => Some (reduce v stk)
  | TOpenArr => Some (FArr [] :: stk, EFirstElem)
  | TOpenObj => Some (FObj [] [] :: stk, EFirstKey)
  | TCloseArr =>
      match first, stk with
      | true, FArr _ :: stk' => Some (reduce (JArr []) stk')
      | _, _ => None
      end
  | _ => None
  end.

Definition feed_key (t : token) (first : bool) (stk : list frame)
  : option pstate :=
  match t, stk with
  | TScalar (JStr s), FObj o _ :: stk' => Some (FObj o s :: stk', EColon)
  | TCloseObj, FObj o _ :: stk' =>
      if first then Some (reduce (JObj o) stk') else None
  | _, _ => None
  end.

Definition feed (t : token) (p : pstate) : option pstate :=
  let '(stk, e) := p in
  match e with
  | EValue => feed_value t false stk
  | EFirstElem => feed_value t true stk
  | EFirstKey => feed_key t true stk
  | EKey => feed_key t false stk
  | EColon => match t with TColon => Some (stk, EValue) | _ => None end
  | ENext =>
      match t, stk with
      | TComma, FArr _ :: _ => Some (stk, EValue)
      | TComma, FObj _ _ :: _ => Some (stk, EKey)
      | TCloseArr, FArr acc :: stk' => Some (reduce (JArr (rev acc)) stk')
      | TCloseObj, FObj o _ :: stk' => Some (reduce (JObj o) stk')
      | _, _ => None
      end
  | EDone _ => None
  end.

Definition astate : Type := (lex_mode * pstate)%type.

Definition emit_token (t : token) (p : pstate) : option astate :=
  match feed t p with
  | Some p' => Some (LDefault, p')
  | None => None
  end.

Definition is_json_space (c : code_unit) : bool :=
  (c =? 9) || (c =? 10) || (c =? 13) || (c =? 32).

Definition hex_value (c : code_unit) : option N :=
  if is_digit c then Some (c - 48)
  else if (97 <=? c) && (c <=? 102) then Some (c - 87)
  else if (65 <=? c) && (c <=? 70) then Some (c - 55)
  else None.

(** A code unit seen between tokens. *)
Definition step_default (c : code_unit) (p : pstate) : option astate :=
  if is_json_space c then Some (LDefault, p)
  else if c =? 123 then emit_token TOpenObj p
  else if c =? 125 then emit_token TCloseObj p
  else if c =? 91 then emit_token TOpenArr p
  else if c =? 93 then emit_token TCloseArr p
  else if c =? 58 then emit_token TColon p
  else if c =? 44 then emit_token TComma p
  else if c =? 34 then Some (LString [], p)
  else if c =? 45 then Some (LNumber NMinus [c], p)
  else if c =? 48 then Some (LNumber NZero [c], p)
  else if is_digit c then Some (LNumber NInt [c], p)
  else if c =? 116 then Some (LLiteral (lit "rue") (JBool true), p)
  else if c =? 102 then Some (LLiteral (lit "alse") (JBool false), p)
  else if c =? 110 then Some (LLiteral (lit "ull") JNull, p)
  else None.

(** The recogniser's move on [c], if [c] continues the literal. *)
Definition num_next (st : num_state) (c : code_unit) : option num_state :=
  let e := (c =? 101) || (c =? 69) in
  match st with
  | NMinus => if c =? 48 then Some NZero
              else if is_digit c then Some NInt else None
  | NZero => if c =? 46 then Some NDot else if e then Some NExp else None
  | NInt => if is_digit c then Some NInt
            else if c =? 46 then Some NDot
            else if e then Some NExp else None
  | NDot => if is_digit c then Some NFrac else None
  | NFrac => if is_digit c then Some NFrac
             else if e then Some NExp else None
  | NExp => if (c =? 43) || (c =? 45) then Some NExpSign
            else if is_digit c then Some NExpDigits else None
  | NExpSign => if is_digit c then Some NExpDigits else None
  | NExpDigits => if is_digit c then Some NExpDigits else None
  end.

Definition num_accepting (st : num_state) : bool :=
  match st with
  | NZero | NInt | NFrac | NExpDigits => true
  | _ => false
  end.

Definition number_token (acc : jsstring) : token :=
  TScalar (JNum (StringToNumber (rev acc))).

Definition step (a : astate) (c : code_unit) : option astate :=
  let '(m, p) := a in
  match m with
  | LDefault => step_default c p
  | LString acc =>
      if c =? 34 then emit_token (TScalar (JStr (rev acc))) p
      else if c =? 92 then Some (LEscape acc, p)
      else if c <? 32 then None
      else Some (LString (c :: acc), p)
  | LEscape acc =>
      if (c =? 34) || (c =? 92) || (c =? 47) then Some (LString (c :: acc), p)
      else if c =? 98 then Some (LString (8 :: acc), p)
      else if c =? 102 then Some (LString (12 :: acc), p)
      else if c =? 110 then Some (LString (10 :: acc), p)
      else if c =? 114 then Some (LString (13 :: acc), p)
      else if c =? 116 then Some (LString (9 :: acc), p)
      else if c =? 117 then Some (LUnicode acc 0 3, p)
      else None
  | LUnicode acc v k =>
      match hex_value c with
      | Some d =>
          match k with
          | O => Some (LString ((16 * v + d) :: acc), p)
          | S k' => Some (LUnicode acc (16 * v + d) k', p)
          end
      | None => None
      end
  | LNumber st acc =>
      match num_next st c with
      | Some st' => Some (LNumber st' (c :: acc), p)
      | None =>
          if num_accepting st then
            match feed (number_token acc) p with
            | Some p' => step_default c p'
            | None => None
            end
          else None
      end
  | LLiteral rest v =>
      match rest with
      | x :: rest' =>
          if c =? x then
            match rest' with
            | [] => emit_token (TScalar v) p
            | _ => Some (LLiteral rest' v, p)
            end
          else None
      | [] => None
      end
  end.

Definition step_opt (a : option astate) (c : code_unit) : option astate :=
  match a with
  | Some a' => step a' c
  | None => None
  end.

Definition run (a : option astate) (s : jsstring) : option astate :=
  fold_left step_opt s a.

(** End of input: a number literal still open is closed, and the text is
    accepted when exactly one value has been completed. *)
Definition finish (a : option astate) : option json :=
  match a with
  | Some (LDefault, ([], EDone v)) => Some v
  | Some (LNumber st acc, p) =>
      if num_accepting st then
        match feed (number_token acc) p with
        | Some ([], EDone v) => Some v
        | _ => None
        end
      else None
  | _ => None
  end.

(** [JSON.parse(s)]: [None] stands for the [SyntaxError] it throws. *)
Definition JSON_parse (s : jsstring) : option json :=
  finish (run (Some (LDefault, ([], EValue))) s).

(* ------------------------------------------------------------------ *)
(** ** The attachment-aware variant *)

(** The information tab shown: [''], ['local'] or ['remote']. *)
Inductive InfoTab : Type := tab_none | tab_local | tab_remote.

Definition InfoTab_eqb (a b : InfoTab) : bool :=
  match a, b with
  | tab_none, tab_none | tab_local, tab_local | tab_remote, tab_remote => true
  | _, _ => false
  end.

(** A [FileReader] that has been started: its handlers close over the
    file and over the text of the render in which it was selected. *)
Record Reader : Type := { rfile : File; rtext : jsstring }.

(** The component's state and refs.  [saveTimerRef] records whether the
    ref holds a timer id.  [theme], [copied] and [isSidebarOpen] are
    presentation only and left out. *)
Record State : Type := {
  mode : Mode;
  text : jsstring;
  attachments : list json;
  sessionCode : jsstring;
  manualCode : jsstring;
  status : Status;
  isGenerating : bool;
  infoTab : InfoTab;
  isUploading : bool;
  hasUnsavedChanges : bool;
  isSaving : bool;
  socketRef : option socket;
  saveTimerRef : bool;
  readers : list Reader
}.

Definition initial : State :=
  {| mode := local; text := []; attachments := []; sessionCode := [];
     manualCode := []; status := idle; isGenerating := false;
     infoTab := tab_none; isUploading := false;
     hasUnsavedChanges := false; isSaving := false; socketRef := None;
     saveTimerRef := false; readers := [] |}.

Definition set_mode (v : Mode) (s : State) : State :=
  {| mode := v; text := text s; attachments := attachments s; sessionCode
     := sessionCode s; manualCode := manualCode s; status := status s;
     isGenerating := isGenerating s; infoTab := infoTab s; isUploading :=
     isUploading s; hasUnsavedChanges := hasUnsavedChanges s; isSaving :=
     isSaving s; socketRef := socketRef s; saveTimerRef := saveTimerRef s;
     readers := readers s |}.
Definition set_text (v : jsstring) (s : State) : State :=
  {| mode := mode s; text := v; attachments := attachments s; sessionCode
     := sessionCode s; manualCode := manualCode s; status := status s;
     isGenerating := isGenerating s; infoTab := infoTab s; isUploading :=
     isUploading s; hasUnsavedChanges := hasUnsavedChanges s; isSaving :=
     isSaving s; socketRef := socketRef s; saveTimerRef := saveTimerRef s;
     readers := readers s |}.
Definition set_attachments (v : list json) (s : State) : State :=
  {| mode := mode s; text := text s; attachments := v; sessionCode :=
     sessionCode s; manualCode := manualCode s; status := status s;
     isGenerating := isGenerating s; infoTab := infoTab s; isUploading :=
     isUploading s; hasUnsavedChanges := hasUnsavedChanges s; isSaving :=
     isSaving s; socketRef := socketRef s; saveTimerRef := saveTimerRef s;
     readers := readers s |}.
Definition set_sessionCode (v : jsstring) (s : State) : State :=
  {| mode := mode s; text := text s; attachments := attachments s;
     sessionCode := v; manualCode := manualCode s; status := status s;
     isGenerating := isGenerating s; infoTab := infoTab s; isUploading :=
     isUploading s; hasUnsavedChanges := hasUnsavedChanges s; isSaving :=
     isSaving s; socketRef := socketRef s; saveTimerRef := saveTimerRef s;
     readers := readers s |}.
Definition set_manualCode (v : jsstring) (s : State) : State :=
  {| mode := mode s; text := text s; attachments := attachments s;
     sessionCode := sessionCode s; manualCode := v; status := status s;
     isGenerating := isGenerating s; infoTab := infoTab s; isUploading :=
     isUploading s; hasUnsavedChanges := hasUnsavedChanges s; isSaving :=
     isSaving s; socketRef := socketRef s; saveTimerRef := saveTimerRef s;
     readers := readers s |}.
Definition set_status (v : Status) (s : State) : State :=
  {| mode := mode s; text := text s; attachments := attachments s;
     sessionCode := sessionCode s; manualCode := manualCode s; status := v;
     isGenerating := isGenerating s; infoTab := infoTab s; isUploading :=
     isUploading s; hasUnsavedChanges := hasUnsavedChanges s; isSaving :=
     isSaving s; socketRef := socketRef s; saveTimerRef := saveTimerRef s;
     readers := readers s |}.
Definition set_isGenerating (v : bool) (s : State) : State :=
  {| mode := mode s; text := text s; attachments := attachments s;
     sessionCode := sessionCode s; manualCode := manualCode s; status :=
     status s; isGenerating := v; infoTab := infoTab s; isUploading :=
     isUploading s; hasUnsavedChanges := hasUnsavedChanges s; isSaving :=
     isSaving s; socketRef := socketRef s; saveTimerRef := saveTimerRef s;
     readers := readers s |}.
Definition set_infoTab (v : InfoTab) (s : State) : State :=
  {| mode := mode s; text := text s; attachments := attachments s;
     sessionCode := sessionCode s; manualCode := manualCode s; status :=
     status s; isGenerating := isGenerating s; infoTab := v; isUploading :=
     isUploading s; hasUnsavedChanges := hasUnsavedChanges s; isSaving :=
     isSaving s; socketRef := socketRef s; saveTimerRef := saveTimerRef s;
     readers := readers s |}.
Definition set_isUploading (v : bool) (s : State) : State :=
  {| mode := mode s; text := text s; attachments := attachments s;
     sessionCode := sessionCode s; manualCode := manualCode s; status :=
     status s; isGenerating := isGenerating s; infoTab := infoTab s;
     isUploading := v; hasUnsavedChanges := hasUnsavedChanges s; isSaving
     := isSaving s; socketRef := socketRef s; saveTimerRef := saveTimerRef
     s; readers := readers s |}.
Definition set_hasUnsavedChanges (v : bool) (s : State) : State :=
  {| mode := mode s; text := text s; attachments := attachments s;
     sessionCode := sessionCode s; manualCode := manualCode s; status :=
     status s; isGenerating := isGenerating s; infoTab := infoTab s;
     isUploading := isUploading s; hasUnsavedChanges := v; isSaving :=
     isSaving s; socketRef := socketRef s; saveTimerRef := saveTimerRef s;
     readers := readers s |}.
Definition set_isSaving (v : bool) (s : State) : State :=
  {| mode := mode s; text := text s; attachments := attachments s;
     sessionCode := sessionCode s; manualCode := manualCode s; status :=
     status s; isGenerating := isGenerating s; infoTab := infoTab s;
     isUploading := isUploading s; hasUnsavedChanges := hasUnsavedChanges
     s; isSaving := v; socketRef := socketRef s; saveTimerRef :=
     saveTimerRef s; readers := readers s |}.
Definition set_socketRef (v : option socket) (s : State) : State :=
  {| mode := mode s; text := text s; attachments := attachments s;
     sessionCode := sessionCode s; manualCode := manualCode s; status :=
     status s; isGenerating := isGenerating s; infoTab := infoTab s;
     isUploading := isUploading s; hasUnsavedChanges := hasUnsavedChanges
     s; isSaving := isSaving s; socketRef := v; saveTimerRef :=
     saveTimerRef s; readers := readers s |}.
Definition set_saveTimerRef (v : bool) (s : State) : State :=
  {| mode := mode s; text := text s; attachments := attachments s;
     sessionCode := sessionCode s; manualCode := manualCode s; status :=
     status s; isGenerating := isGenerating s; infoTab := infoTab s;
     isUploading := isUploading s; hasUnsavedChanges := hasUnsavedChanges
     s; isSaving := isSaving s; socketRef := socketRef s; saveTimerRef :=
     v; readers := readers s |}.
Definition set_readers (v : list Reader) (s : State) : State :=
  {| mode := mode s; text := text s; attachments := attachments s;
     sessionCode := sessionCode s; manualCode := manualCode s; status :=
     status s; isGenerating := isGenerating s; infoTab := infoTab s;
     isUploading := isUploading s; hasUnsavedChanges := hasUnsavedChanges
     s; isSaving := isSaving s; socketRef := socketRef s; saveTimerRef :=
     saveTimerRef s; readers := v |}.

Definition isLocalMode (s : State) : bool :=
  match mode s with local => true | remote => false end.

Definition roomCode (s : State) : jsstring :=
  if isLocalMode s then LOCAL_ROOM else sessionCode s.

(** The [payload] of [syncPayload]:
    [JSON.stringify({text: ..., attachments: ...})]. *)
Definition payload_of (nextTextValue : jsstring)
    (nextAttachmentsValue : list json) : jsstring :=
  stringify (JObj [(lit "text", JStr nextTextValue);
                   (lit "attachments", JArr nextAttachmentsValue)]).

(** [socketRef.current?.emit('update-data', payload)]. *)
Definition syncPayload (nextTextValue : jsstring)
    (nextAttachmentsValue : list json) : M State unit :=
  let payload := payload_of nextTextValue nextAttachmentsValue in
  sock <- read socketRef ;;
  match sock with
  | Some k => perform (Emit k (lit "update-data") payload)
  | None => ret tt
  end.

(** The effect keyed on [roomCode], and the cleanup it returns when it
    opened a channel. *)
Definition roomEffect (room : jsstring) : M State unit :=
  if falsy room then
    modify (set_status waiting) ;;
    sock <- read socketRef ;;
    match sock with
    | Some k => perform (Disconnect k) ;; modify (set_socketRef None)
    | None => ret tt
    end
  else
    modify (set_status connecting) ;;
    perform (Connect room) ;;
    modify (set_socketRef (Some room)).

Definition roomCleanup (room : jsstring) : M State unit :=
  if falsy room then ret tt
  else perform (Disconnect room) ;; modify (set_socketRef None).

(** [JSON.parse] inside a handler. *)
Definition parse (s : jsstring) : M State json :=
  match JSON_parse s with
  | Some v => ret v
  | None => raise SyntaxError
  end.

(** [v.name] for the two names the inbound handler reads, [text] and
    [attachments]: reading a property of [null] throws; primitives and
    arrays have no property of either name, an object has it when it is
    an own property. *)
Definition get_member (v : json) (name : jsstring) : M State (option json) :=
  match v with
  | JNull => raise TypeError
  | JObj o => ret (obj_get name o)
  | _ => ret None
  end.

(** [socket.on('sync-data', ...)]. *)
Definition onSyncData (p : payload) : M State unit :=
  match p with
  | PNonString =>
      modify (set_text []) ;;
      modify (set_attachments []) ;;
      modify (set_hasUnsavedChanges false)
  | PString payload =>
      try_finally
        (try_catch
           (parsed <- parse payload ;;
            t <- get_member parsed (lit "text") ;;
            modify (set_text (match t with Some (JStr x) => x | _ => [] end)) ;;
            a <- get_member parsed (lit "attachments") ;;
            modify (set_attachments
                      (match a with Some (JArr l) => l | _ => [] end)))
           (fun _error =>
              modify (set_text payload) ;;
              modify (set_attachments [])))
        (modify (set_hasUnsavedChanges false))
  end.

Definition handleTextChange (value : jsstring) : M State unit :=
  modify (set_text value) ;;
  modify (set_hasUnsavedChanges true).

(** The code pipeline shared by [startRemoteSession] and
    [handleCodeChange]:
    [.toUpperCase().replace(/[^A-Z0-9]/g, '').slice(0, 6)]. *)
Definition normalize (code : jsstring) : jsstring :=
  slice0 6 (strip_non_code (toUpperCase upperNonAscii code)).

(** [startRemoteSession(code = '')]: an absent or [null] code is the
    empty string; any other value that is not a string has no
    [toUpperCase] method. *)
Definition startRemoteSession (code : option json) : M State unit :=
  c <- match code with
       | None | Some JNull => ret []
       | Some (JStr c) => ret c
       | Some _ => raise TypeError
       end ;;
  let normalized := normalize c in
  if falsy normalized then ret tt
  else
    modify (set_mode remote) ;;
    modify (set_sessionCode normalized) ;;
    modify (set_manualCode normalized) ;;
    modify (set_infoTab tab_remote).

Definition generateFailed : string :=
  "Unable to create a share code. Please try again.".

(** [createRemoteSession] up to its first [await]. *)
Definition createRemoteSession_begin : M State unit :=
  modify (set_isGenerating true).

(** [createRemoteSession] after the response: [None] when the request
    failed or was not ok, or when its body was not JSON or was [null],
    where reading [code] throws; otherwise what [data.code] gives,
    [Some None] for a body that has no such member (an object without
    it, an array, a number, a string, a boolean). *)
Definition createRemoteSession_resume (resp : option (option json))
  : M State unit :=
  try_finally
    (try_catch
       (match resp with
        | Some code => startRemoteSession code
        | None => raise OtherError
        end)
       (fun _error => perform (Alert generateFailed)))
    (modify (set_isGenerating false)).

(** [r] is the render the handler closes over. *)
Definition joinWithCode (r : State) : M State unit :=
  if falsy (trim (manualCode r)) then ret tt
  else startRemoteSession (Some (JStr (manualCode r))).

Definition handleCodeChange (value : jsstring) : M State unit :=
  modify (set_manualCode (normalize value)).

Definition resetRemoteSession : M State unit :=
  modify (set_mode local) ;;
  modify (set_sessionCode []) ;;
  modify (set_manualCode []) ;;
  modify (set_text []) ;;
  modify (set_attachments []) ;;
  modify (set_status idle) ;;
  sock <- read socketRef ;;
  match sock with Some k => perform (Disconnect k) | None => ret tt end ;;
  modify (set_socketRef None) ;;
  modify (set_infoTab tab_none) ;;
  modify (set_hasUnsavedChanges false).

Definition toggleInfoTab (tabKey : InfoTab) : M State unit :=
  modify (fun s => set_infoTab
                     (if InfoTab_eqb (infoTab s) tabKey then tab_none
                      else tabKey) s).

Definition handleMobileRemoteCode (r : State) : M State unit :=
  modify (set_infoTab tab_remote) ;;
  if falsy (sessionCode r) then createRemoteSession_begin else ret tt.

(** *** Attachments *)

Record Attachment : Type := {
  att_id : jsstring;
  att_name : jsstring;
  att_type : jsstring;
  att_dataUrl : jsstring
}.

(** The object literal [{id, name, type, dataUrl}]. *)
Definition attachment_object (a : Attachment) : json :=
  JObj [(lit "id", JStr (att_id a)); (lit "name", JStr (att_name a));
        (lit "type", JStr (att_type a));
        (lit "dataUrl", JStr (att_dataUrl a))].

Definition tooLarge : string :=
  "File is too large. Please pick something under 5MB.".
Definition unreadable : string :=
  "Unable to read that file. Please try another.".

Definition snippet_of (f : File) (result : jsstring) : jsstring :=
  if startsWith (lit "image/") (ftype f) then
    lit "![" ++ fname f ++ lit "](" ++ result ++ lit ")"
  else if startsWith (lit "video/") (ftype f) then
    lit "<video controls src=" ++ [34] ++ result ++ [34]
      ++ lit "></video>"
  else lit "[" ++ fname f ++ lit "](" ++ result ++ lit ")".

(** [handleFileSelected]: [file] is [event.target.files?.[0]]. *)
Definition handleFileSelected (file : option File) (r : State)
  : M State unit :=
  match file with
  | None => ret tt
  | Some f =>
      if MAX_FILE_SIZE <? fsize f then
        perform (Alert tooLarge) ;;
        perform ResetInput
      else
        modify (set_isUploading true) ;;
        modify (fun s =>
                  set_readers
                    (readers s ++ [{| rfile := f; rtext := text r |}]) s) ;;
        perform (ReadAsDataURL f)
  end.

(** [reader.onload]: [result] is [None] when [reader.result] is not a
    string; [id] is the fresh identifier drawn for the attachment. *)
Definition reader_onload (rd : Reader) (result : option jsstring)
    (id : jsstring) : M State unit :=
  match result with
  | None =>
      modify (set_isUploading false) ;;
      perform ResetInput
  | Some res =>
      let snippet := snippet_of (rfile rd) res in
      let attachment :=
        attachment_object
          {| att_id := id; att_name := fname (rfile rd);
             att_type := ftype (rfile rd); att_dataUrl := res |} in
      let nextText :=
        if falsy (rtext rd) then snippet
        else rtext rd ++ [10; 10] ++ snippet in
      modify (set_text nextText) ;;
      modify (fun s => set_attachments (attachments s ++ [attachment]) s) ;;
      modify (set_hasUnsavedChanges true) ;;
      modify (set_isUploading false) ;;
      perform ResetInput
  end.

Definition reader_onerror : M State unit :=
  perform (Alert unreadable) ;;
  modify (set_isUploading false) ;;
  perform ResetInput.

(** *** Save and clear *)

Definition notReady : string :=
  "Connection is not ready yet. Please wait until the session is live before saving.".

Definition handleSave (r : State) : M State unit :=
  if negb (hasUnsavedChanges r) then ret tt
  else if negb (Status_eqb (status r) connected) then
    perform (Alert notReady)
  else
    tm <- read saveTimerRef ;;
    (if tm then perform ClearTimeout else ret tt) ;;
    modify (set_isSaving true) ;;
    syncPayload (text r) (attachments r) ;;
    modify (set_hasUnsavedChanges false) ;;
    perform (SetTimeout 600) ;;
    modify (set_saveTimerRef true).

Definition saveTimer_fired : M State unit :=
  modify (set_isSaving false).

Definition handleClear (r : State) : M State unit :=
  if falsy (text r) && Nat.eqb (List.length (attachments r)) 0 then ret tt
  else
    modify (set_text []) ;;
    modify (set_attachments []) ;;
    modify (set_hasUnsavedChanges false) ;;
    syncPayload [] [].

(** What the render derives for the two buttons: each is disabled when
    its flag is false. *)
Definition canSave (s : State) : bool :=
  hasUnsavedChanges s && Status_eqb (status s) connected.
Definition canClear (s : State) : bool :=
  negb (falsy (text s)) || negb (Nat.eqb (List.length (attachments s)) 0).

(** *** The component as a transition system *)

Inductive event : Type :=
| EvConnect                       (* the bound channel's [connect] *)
| EvDisconnect                    (* its [disconnect] *)
| EvConnectError                  (* its [connect_error] *)
| EvSyncData (p : payload)        (* its [sync-data] *)
| EvTextChange (value : jsstring)
| EvCodeChange (value : jsstring)
| EvJoinWithCode
| EvCreateSession
| EvSessionResponse (resp : option (option json))
| EvMobileRemoteCode
| EvResetRemoteSession
| EvToggleInfoTab (tabKey : InfoTab)
| EvFileSelected (file : option File)
| EvReaderLoad (i : nat) (result : option jsstring) (id : jsstring)
| EvReaderError (i : nat)
| EvSave
| EvClear
| EvSaveTimer.

Definition drop_reader (i : nat) (s : State) : State :=
  set_readers (firstn i (readers s) ++ skipn (S i) (readers s)) s.

(** The handler an event runs, given the committed render [r]. *)
Definition handler (ev : event) (r : State) : M State unit :=
  match ev with
  | EvConnect => modify (set_status connected)
  | EvDisconnect => modify (set_status disconnected)
  | EvConnectError => modify (set_status error)
  | EvSyncData p => onSyncData p
  | EvTextChange value => handleTextChange value
  | EvCodeChange value => handleCodeChange value
  | EvJoinWithCode => joinWithCode r
  | EvCreateSession => createRemoteSession_begin
  | EvSessionResponse resp => createRemoteSession_resume resp
  | EvMobileRemoteCode => handleMobileRemoteCode r
  | EvResetRemoteSession => resetRemoteSession
  | EvToggleInfoTab tabKey => toggleInfoTab tabKey
  | EvFileSelected file => handleFileSelected file r
  | EvReaderLoad i result id =>
      match nth_error (readers r) i with
      | Some rd => modify (drop_reader i) ;; reader_onload rd result id
      | None => ret tt
      end
  | EvReaderError i =>
      match nth_error (readers r) i with
      | Some _ => modify (drop_reader i) ;; reader_onerror
      | None => ret tt
      end
  | EvSave => handleSave r
  | EvClear => handleClear r
  | EvSaveTimer => saveTimer_fired
  end.

(** When an event can occur: channel events come from the bound channel,
    a reader event from a started reader, the timer from a set timer;
    the controls that end a remote session are rendered in remote mode
    only. *)
Definition enabled (ev : event) (s : State) : bool :=
  match ev with
  | EvConnect | EvDisconnect | EvConnectError | EvSyncData _ =>
      match socketRef s with Some _ => true | None => false end
  | EvResetRemoteSession => negb (isLocalMode s)
  | EvReaderLoad i _ _ | EvReaderError i =>
      match nth_error (readers s) i with Some _ => true | None => false end
  | EvSaveTimer => saveTimerRef s
  | _ => true
  end.

(** After the handler's updates are committed, the effect runs again if
    [roomCode] changed: first the previous run's cleanup.  (A channel
    that the client itself disconnects may still report [disconnect]
    while it is being torn down; the status that callback writes is
    overwritten at once by the effect, which always runs after a
    teardown in a reachable state, so it is not modelled.) *)
Definition rerunEffect (before : State) : M State unit :=
  now <- read roomCode ;;
  if jsstring_eqb (roomCode before) now then ret tt
  else roomCleanup (roomCode before) ;; roomEffect now.

Definition dispatch (ev : event) (s : State) : M State unit :=
  handler ev s ;; rerunEffect s.

(** The state once the component is mounted: the first run of the
    effect. *)
Definition mounted : State :=
  state_after (roomEffect (roomCode initial)) initial.

Definition step_state (s : State) (ev : event) : State :=
  state_after (dispatch ev s) s.

Inductive reachable : State -> Prop :=
| reach_mounted : reachable mounted
| reach_step s ev :
    reachable s -> enabled ev s = true -> reachable (step_state s ev).

(** *** Notions the properties are stated with *)

(** [v] is read back wherever a value may stand: the automaton, having
    consumed what [stringify] printed for [v], has handed [v] to the
    innermost open container. *)
Definition parses_back (v : json) : Prop :=
  forall (stk : list frame) (e : expect) (rest : jsstring),
    e = EValue \/ e = EFirstElem ->
    run (Some (LDefault, (stk, e))) (stringify v ++ rest)
    = run (Some (LDefault, reduce v stk)) rest.

(** The channel ref holds the channel of the current room, and the
    session code is a fixed point of [normalize], present whenever the
    mode is remote. *)
Definition room_inv (s : State) : Prop :=
  socketRef s = Some (roomCode s)
  /\ normalize (sessionCode s) = sessionCode s
  /\ (mode s = remote -> sessionCode s <> []).

(** The document the inbound handler installs for a string payload. *)
Definition inbound_doc (payload : jsstring) : jsstring * list json :=
  match JSON_parse payload with
  | None | Some JNull => (payload, [])
  | Some (JObj o) =>
      (match obj_get (lit "text") o with Some (JStr x) => x | _ => [] end,
       match obj_get (lit "attachments") o with
       | Some (JArr l) => l
       | _ => []
       end)
  | Some _ => ([], [])
  end.

(** Three runs from the mount.  One character typed: the channel is
    still connecting and the document is not empty. *)
Definition typed_while_connecting : State :=
  step_state mounted (EvTextChange (lit "x")).

(** Connected, then an edit: unsaved changes on a live connection. *)
Definition edited_while_connected : State :=
  step_state (step_state mounted EvConnect) (EvTextChange (lit "hi")).

(** A session created with the raw code [d9-kl!mn]. *)
Definition joined_remote : State :=
  step_state mounted
    (EvSessionResponse (Some (Some (JStr (lit "d9-kl!mn"))))).

(** Whether a string starts with the second half of a surrogate pair. *)
Definition starts_low (b : jsstring) : bool :=
  match b with d :: _ => is_low d | [] => false end.

(** Two more runs from the mount: a code typed into the code field,
    and a file of exactly the size limit selected. *)
Definition code_typed : State :=
  step_state mounted (EvCodeChange (lit "d9-kl!mn")).

Definition file_selected : State :=
  step_state mounted (EvFileSelected (Some five_mebibytes)).

(** *** Channels and sessions *)

(** The effects that touch a channel. *)
Definition is_channel_effect (e : effect) : bool :=
  match e with
  | Connect _ | Disconnect _ | Emit _ _ _ => true
  | _ => false
  end.

(** The channel open after some effects, given the one open before:
    [None] when a channel is opened while another is still open or
    something is emitted on a channel that is not the open one.
    Disconnecting a channel that is not open changes nothing. *)
Fixpoint channel_after (open : option socket) (l : list effect)
  : option (option socket) :=
  match l with
  | [] => Some open
  | Connect room :: l' =>
      match open with
      | None => channel_after (Some room) l'
      | Some _ => None
      end
  | Disconnect k :: l' =>
      match open with
      | Some k' =>
          channel_after (if jsstring_eqb k k' then None else open) l'
      | None => channel_after None l'
      end
  | Emit k _ _ :: l' =>
      match open with
      | Some k' => if jsstring_eqb k k' then channel_after open l' else None
      | None => None
      end
  | _ :: l' => channel_after open l'
  end.

(** The mode and the codes go together, and once mounted the status is
    never [idle] or [waiting]. *)
Definition session_inv (s : State) : Prop :=
  (mode s = local -> sessionCode s = [])
  /\ normalize (manualCode s) = manualCode s
  /\ status s <> idle /\ status s <> waiting.

(* ================================================================== *)
(** ** Properties *)

(** Running a handler on a symbolic state. *)
Ltac run_m :=
  cbv [exec state_after effects_of outcome bind ret raise modify perform
       read try_catch try_finally
       handler onSyncData handleTextChange startRemoteSession
       createRemoteSession_begin createRemoteSession_resume joinWithCode
       handleCodeChange resetRemoteSession toggleInfoTab
       handleMobileRemoteCode handleFileSelected reader_onload
       reader_onerror handleSave saveTimer_fired handleClear syncPayload
       roomEffect roomCleanup parse get_member];
  simpl.

Lemma jsstring_eqb_refl (a : jsstring) : jsstring_eqb a a = true.
Proof.
  induction a as [| x a IH]; simpl; [reflexivity |]. now rewrite N.eqb_refl.
Qed.

Lemma jsstring_eqb_eq (a b : jsstring) : jsstring_eqb a b = true <-> a = b.
Proof.
  split; [| intros ->; apply jsstring_eqb_refl].
  revert b. induction a as [| x a IH]; intros [| y b]; simpl; try discriminate;
    [reflexivity |].
  intros H. apply andb_true_iff in H. destruct H as [Hx Hab].
  apply N.eqb_eq in Hx. apply IH in Hab. now subst.
Qed.

(** A handler that leaves [roomCode] alone is the whole reaction. *)
Lemma dispatch_same_room (ev : event) (s : State) :
  outcome (handler ev s) s = inl tt ->
  roomCode (state_after (handler ev s) s) = roomCode s ->
  exec (dispatch ev s) s = exec (handler ev s) s.
Proof.
  unfold dispatch, rerunEffect, outcome, state_after, exec, bind, read.
  destruct (handler ev s (s, [])) as [[s' l] [[] | e]]; simpl;
    [| discriminate].
  intros _ ->. now rewrite jsstring_eqb_refl.
Qed.

Lemma exec_parts {A} (m : M State A) (s s' : State) (l : list effect)
    (r : A + exn) :
  exec m s = ((s', l), r) ->
  state_after m s = s' /\ effects_of m s = l /\ outcome m s = r.
Proof. unfold state_after, effects_of, outcome. now intros ->. Qed.

(** *** Code normalisation *)

Lemma normalize_nil : normalize [] = [].
Proof. reflexivity. Qed.

Lemma In_firstn {A} (n : nat) (l : list A) (x : A) :
  In x (firstn n l) -> In x l.
Proof.
  revert l. induction n as [| n IH]; intros [| y l]; simpl; try tauto.
  intros [H | H]; [now left | right; now apply IH].
Qed.

Lemma normalize_code_chars (x : jsstring) :
  Forall (fun c => is_code_char c = true) (normalize x).
Proof.
  unfold normalize, slice0, strip_non_code.
  apply Forall_forall. intros c Hc.
  apply In_firstn in Hc. apply filter_In in Hc. tauto.
Qed.

Lemma normalize_length (x : jsstring) :
  List.length (normalize x)
  = Nat.min 6 (List.length (strip_non_code (toUpperCase upperNonAscii x))).
Proof. unfold normalize, slice0. apply length_firstn. Qed.

Lemma is_code_char_ascii_upper (c : code_unit) :
  is_code_char c = true -> (c <? 128) = true /\ is_lower c = false.
Proof.
  unfold is_code_char, is_upper, is_digit, is_lower. intros H. split.
  - apply N.ltb_lt. apply orb_true_iff in H.
    destruct H as [H | H]; apply andb_true_iff in H; destruct H as [_ H];
      apply N.leb_le in H; lia.
  - apply andb_false_iff. apply orb_true_iff in H.
    destruct H as [H | H]; apply andb_true_iff in H; destruct H as [_ H];
      apply N.leb_le in H; left; apply N.leb_gt; lia.
Qed.

Lemma toUpperCase_code_chars (s : jsstring) :
  Forall (fun c => is_code_char c = true) s ->
  toUpperCase upperNonAscii s = s.
Proof.
  induction 1 as [| c t Hc _ IH]; simpl; [reflexivity |].
  destruct (is_code_char_ascii_upper c Hc) as [-> ->]. now rewrite IH.
Qed.

Lemma strip_code_chars (s : jsstring) :
  Forall (fun c => is_code_char c = true) s -> strip_non_code s = s.
Proof.
  unfold strip_non_code. induction 1 as [| c t Hc _ IH]; simpl; [reflexivity |].
  now rewrite Hc, IH.
Qed.

(** A string of at most six code characters is left alone. *)
Lemma normalize_fixed (y : jsstring) :
  Forall (fun c => is_code_char c = true) y ->
  (List.length y <= 6)%nat ->
  normalize y = y.
Proof.
  intros Hall Hlen. unfold normalize, slice0.
  rewrite (toUpperCase_code_chars _ Hall), (strip_code_chars _ Hall).
  now apply firstn_all2.
Qed.

Lemma normalize_short (x : jsstring) : (List.length (normalize x) <= 6)%nat.
Proof. rewrite normalize_length. apply Nat.le_min_l. Qed.

(** C9: normalising twice is normalising once. *)
Theorem normalize_idempotent (x : jsstring) :
  normalize (normalize x) = normalize x.
Proof.
  pose proof (normalize_code_chars x) as Hall.
  pose proof (normalize_short x) as Hlen.
  unfold normalize at 1.
  rewrite (toUpperCase_code_chars _ Hall), (strip_code_chars _ Hall).
  unfold slice0. now apply firstn_all2.
Qed.

(** The code [d9-kl!mn] typed into the code field. *)
Example normalize_typed_code : normalize (lit "d9-kl!mn") = lit "D9KLMN".
Proof. reflexivity. Qed.

(** *** Parsing what [JSON.stringify] printed *)

Lemma run_app (a : option astate) (s1 s2 : jsstring) :
  run a (s1 ++ s2) = run (run a s1) s2.
Proof. apply fold_left_app. Qed.

Lemma run_cons (a : option astate) (c : code_unit) (s : jsstring) :
  run a (c :: s) = run (step_opt a c) s.
Proof. reflexivity. Qed.

Lemma hex_value_hex_digit (d : N) :
  d < 16 -> hex_value (hex_digit d) = Some d.
Proof.
  intros H.
  assert (E : d = 0 \/ d = 1 \/ d = 2 \/ d = 3 \/ d = 4 \/ d = 5 \/ d = 6
              \/ d = 7 \/ d = 8 \/ d = 9 \/ d = 10 \/ d = 11 \/ d = 12
              \/ d = 13 \/ d = 14 \/ d = 15) by lia.
  repeat (destruct E as [-> | E]; [reflexivity |]). now subst.
Qed.

Lemma step_hex (acc : jsstring) (v d : N) (k : nat) (p : pstate) :
  d < 16 ->
  step (LUnicode acc v k, p) (hex_digit d)
  = match k with
    | O => Some (LString ((16 * v + d) :: acc), p)
    | S k' => Some (LUnicode acc (16 * v + d) k', p)
    end.
Proof. intros H. unfold step. now rewrite hex_value_hex_digit. Qed.

Lemma four_hex_digits (c : N) :
  c < 65536 ->
  16 * (16 * (16 * (16 * 0 + c / 4096 mod 16) + c / 256 mod 16)
        + c / 16 mod 16) + c mod 16 = c.
Proof.
  intros H.
  pose proof (N.div_mod c 16 ltac:(lia)) as H0.
  pose proof (N.div_mod (c / 16) 16 ltac:(lia)) as H1.
  pose proof (N.div_mod (c / 256) 16 ltac:(lia)) as H2.
  replace (c / 16 / 16) with (c / 256) in H1
    by (rewrite N.Div0.div_div; reflexivity).
  replace (c / 256 / 16) with (c / 4096) in H2
    by (rewrite N.Div0.div_div; reflexivity).
  assert (H3 : c / 4096 < 16) by (apply N.Div0.div_lt_upper_bound; lia).
  rewrite (N.mod_small (c / 4096) 16 H3).
  generalize dependent (c / 16). generalize dependent (c / 256).
  generalize dependent (c / 4096). generalize dependent (c mod 16).
  intros. lia.
Qed.

(** An escape [\uXXXX] is read back as the code unit it was printed
    for. *)
Lemma run_UnicodeEscape (c : code_unit) (acc rest : jsstring) (p : pstate) :
  c < 65536 ->
  run (Some (LString acc, p)) (UnicodeEscape c ++ rest)
  = run (Some (LString (c :: acc), p)) rest.
Proof.
  intros H. unfold UnicodeEscape.
  assert (Hm : forall x, x mod 16 < 16) by (intros x; apply N.mod_lt; lia).
  simpl app. rewrite !run_cons.
  change (step_opt (Some (LString acc, p)) 92) with (Some (LEscape acc, p)).
  change (step_opt (Some (LEscape acc, p)) 117)
    with (Some (LUnicode acc 0 3, p)).
  unfold step_opt at 4. rewrite step_hex by apply Hm.
  unfold step_opt at 3. rewrite step_hex by apply Hm.
  unfold step_opt at 2. rewrite step_hex by apply Hm.
  unfold step_opt at 1. rewrite step_hex by apply Hm.
  now rewrite four_hex_digits.
Qed.

Lemma step_plain (c : code_unit) (acc : jsstring) (p : pstate) :
  (c =? 34) = false -> (c =? 92) = false -> (c <? 32) = false ->
  step (LString acc, p) c = Some (LString (c :: acc), p).
Proof. intros H1 H2 H3. unfold step. now rewrite H1, H2, H3. Qed.

Lemma run_quote_unit (c : code_unit) (acc rest : jsstring) (p : pstate) :
  run (Some (LString acc, p)) (quote_unit c ++ rest)
  = run (Some (LString (c :: acc), p)) rest.
Proof.
  unfold quote_unit.
  repeat match goal with
         | |- context [if ?x =? ?n then _ else _] =>
             destruct (N.eqb_spec x n) as [-> | ?]; [reflexivity |]
         end.
  destruct ((c <? 32) || is_high c || is_low c) eqn:E.
  - apply run_UnicodeEscape.
    unfold is_high, is_low in E.
    apply orb_true_iff in E. destruct E as [E | E];
      [apply orb_true_iff in E; destruct E as [E | E] |].
    + apply N.ltb_lt in E. lia.
    + apply andb_true_iff in E. destruct E as [_ E]. apply N.leb_le in E. lia.
    + apply andb_true_iff in E. destruct E as [_ E]. apply N.leb_le in E. lia.
  - apply orb_false_iff in E. destruct E as [E _].
    apply orb_false_iff in E. destruct E as [E _].
    simpl app. rewrite run_cons. unfold step_opt.
    rewrite step_plain; [reflexivity | | | exact E];
      now apply N.eqb_neq.
Qed.

Lemma surrogate_plain (c : code_unit) :
  is_high c = true \/ is_low c = true ->
  (c =? 34) = false /\ (c =? 92) = false /\ (c <? 32) = false
  /\ c < 65536.
Proof.
  unfold is_high, is_low.
  intros [H | H]; apply andb_true_iff in H; destruct H as [H1 H2];
    apply N.leb_le in H1, H2;
    repeat split; try (apply N.eqb_neq; lia); try (apply N.ltb_ge; lia); lia.
Qed.

Lemma quote_body_cons (c : code_unit) (t : jsstring) :
  quote_body (c :: t)
  = if is_high c then
      match t with
      | d :: t' =>
          if is_low d then c :: d :: quote_body t'
          else UnicodeEscape c ++ quote_body t
      | [] => UnicodeEscape c
      end
    else quote_unit c ++ quote_body t.
Proof. reflexivity. Qed.

(** The body of a quoted string is read back as the string. *)
Lemma run_quote_body (n : nat) :
  forall (s acc rest : jsstring) (p : pstate),
    (List.length s <= n)%nat ->
    run (Some (LString acc, p)) (quote_body s ++ rest)
    = run (Some (LString (rev s ++ acc), p)) rest.
Proof.
  induction n as [| n IH]; intros s acc rest p Hlen.
  - destruct s; [reflexivity | simpl in Hlen; lia].
  - destruct s as [| c t]; [reflexivity |].
    simpl in Hlen. rewrite quote_body_cons.
    destruct (is_high c) eqn:Hc.
    + destruct (surrogate_plain c (or_introl Hc)) as (C1 & C2 & C3 & C4).
      destruct t as [| d t'].
      * rewrite run_UnicodeEscape by exact C4. reflexivity.
      * destruct (is_low d) eqn:Hd.
        -- destruct (surrogate_plain d (or_intror Hd)) as (D1 & D2 & D3 & _).
           simpl app. rewrite !run_cons. unfold step_opt at 2.
           rewrite step_plain by assumption. unfold step_opt at 1.
           rewrite step_plain by assumption.
           simpl in Hlen. rewrite IH by lia.
           simpl rev. now rewrite <- !app_assoc.
        -- rewrite <- app_assoc, run_UnicodeEscape by exact C4.
           rewrite IH by lia. simpl rev. now rewrite <- !app_assoc.
    + rewrite <- app_assoc, run_quote_unit. rewrite IH by lia.
      simpl rev. now rewrite <- app_assoc.
Qed.

Lemma run_QuoteJSONString (s rest : jsstring) (p : pstate) :
  run (Some (LDefault, p)) (QuoteJSONString s ++ rest)
  = run (emit_token (TScalar (JStr s)) p) rest.
Proof.
  unfold QuoteJSONString. simpl app. rewrite run_cons.
  change (step_opt (Some (LDefault, p)) 34) with (Some (LString [], p)).
  rewrite <- app_assoc.
  rewrite (run_quote_body (List.length s)) by apply Nat.le_refl.
  simpl app. rewrite run_cons. rewrite app_nil_r.
  unfold step_opt, step. simpl. now rewrite rev_involutive.
Qed.

(** The six structural characters, seen between tokens. *)
Lemma step_default_punct (p : pstate) :
  step_default 123 p = emit_token TOpenObj p
  /\ step_default 125 p = emit_token TCloseObj p
  /\ step_default 91 p = emit_token TOpenArr p
  /\ step_default 93 p = emit_token TCloseArr p
  /\ step_default 58 p = emit_token TColon p
  /\ step_default 44 p = emit_token TComma p.
Proof. repeat split. Qed.

(** One structural character consumed from the default mode. *)
Ltac punct :=
  rewrite run_cons; cbn [step_opt step];
  match goal with
  | |- context [step_default _ ?p] =>
      let H := fresh in
      pose proof (step_default_punct p) as H;
      destruct H as (?H1 & ?H2 & ?H3 & ?H4 & ?H5 & ?H6);
      first [ rewrite H1 | rewrite H2 | rewrite H3
            | rewrite H4 | rewrite H5 | rewrite H6 ];
      clear H1 H2 H3 H4 H5 H6
  end;
  cbn [emit_token feed feed_value feed_key reduce].

Lemma parses_back_JStr (x : jsstring) : parses_back (JStr x).
Proof.
  intros stk e rest [-> | ->]; cbn [stringify];
    now rewrite run_QuoteJSONString.
Qed.

Lemma run_member (k x rest : jsstring) (o : object) (k0 : jsstring)
    (stk : list frame) (e : expect) :
  e = EFirstKey \/ e = EKey ->
  run (Some (LDefault, (FObj o k0 :: stk, e)))
      (QuoteJSONString k ++ 58 :: QuoteJSONString x ++ rest)
  = run (Some (LDefault, (FObj (obj_set k (JStr x) o) k :: stk, ENext))) rest.
Proof.
  intros [-> | ->]; rewrite run_QuoteJSONString;
    cbn [emit_token feed feed_key]; punct; now rewrite run_QuoteJSONString.
Qed.

Lemma parses_back_attachment (a : Attachment) :
  parses_back (attachment_object a).
Proof.
  intros stk e rest He.
  cbn [stringify attachment_object map join_comma].
  repeat (rewrite <- ?app_assoc, <- ?app_comm_cons).
  rewrite run_cons.
  assert (Hopen : step_opt (Some (LDefault, (stk, e))) 123
                  = Some (LDefault, (FObj [] [] :: stk, EFirstKey)))
    by (destruct He as [-> | ->]; reflexivity).
  rewrite Hopen.
  rewrite run_member by now left. punct.
  rewrite run_member by now right. punct.
  rewrite run_member by now right. punct.
  rewrite run_member by now right. punct.
  reflexivity.
Qed.

Lemma run_elements (vs : list json) :
  Forall parses_back vs ->
  forall (v : json) (acc : list json) (stk : list frame) (e : expect)
         (rest : jsstring),
    parses_back v ->
    e = EValue \/ e = EFirstElem ->
    run (Some (LDefault, (FArr acc :: stk, e)))
        (join_comma (map stringify (v :: vs)) ++ 93 :: rest)
    = run (Some (LDefault, reduce (JArr (rev acc ++ v :: vs)) stk)) rest.
Proof.
  induction 1 as [| w vs Hw _ IH]; intros v acc stk e rest Hv He.
  - cbn [map join_comma]. rewrite (Hv _ _ _ He).
    cbn [reduce]. punct. reflexivity.
  - change (join_comma (map stringify (v :: w :: vs)))
      with (stringify v ++ 44 :: join_comma (map stringify (w :: vs))).
    rewrite <- app_assoc, (Hv _ _ _ He). cbn [reduce].
    rewrite <- app_comm_cons. punct.
    rewrite IH by (assumption || now left).
    simpl rev. now rewrite <- app_assoc.
Qed.

Lemma run_array (vs : list json) (stk : list frame) (e : expect)
    (rest : jsstring) :
  Forall parses_back vs ->
  e = EValue \/ e = EFirstElem ->
  run (Some (LDefault, (stk, e)))
      (91 :: join_comma (map stringify vs) ++ 93 :: rest)
  = run (Some (LDefault, reduce (JArr vs) stk)) rest.
Proof.
  intros Hall He. rewrite run_cons.
  assert (Hopen : step_opt (Some (LDefault, (stk, e))) 91
                  = Some (LDefault, (FArr [] :: stk, EFirstElem)))
    by (destruct He as [-> | ->]; reflexivity).
  rewrite Hopen.
  destruct Hall as [| v vs Hv Hvs].
  - cbn [map join_comma app]. punct. reflexivity.
  - now rewrite (run_elements vs Hvs) by (assumption || now right).
Qed.

Lemma parses_back_JArr (vs : list json) :
  Forall parses_back vs -> parses_back (JArr vs).
Proof.
  intros Hall stk e rest He.
  change (stringify (JArr vs))
    with (91 :: join_comma (map stringify vs) ++ [93]).
  rewrite <- app_comm_cons, <- app_assoc. now apply run_array.
Qed.

(** The payload of a document whose attachments are attachment records
    parses to the object it was printed from. *)
Lemma JSON_parse_payload_of (t : jsstring) (atts : list Attachment) :
  JSON_parse (payload_of t (map attachment_object atts))
  = Some (JObj [(lit "text", JStr t);
                (lit "attachments", JArr (map attachment_object atts))]).
Proof.
  unfold JSON_parse, payload_of.
  cbn [stringify map join_comma].
  repeat (rewrite <- ?app_assoc, <- ?app_comm_cons).
  rewrite run_cons.
  change (step_opt (Some (LDefault, ([], EValue))) 123)
    with (Some (LDefault, ([FObj [] []], EFirstKey))).
  rewrite run_member by now left. punct.
  rewrite run_QuoteJSONString. cbn [emit_token feed feed_key]. punct.
  rewrite run_array; [| | now left].
  - cbn [reduce app]. punct. reflexivity.
  - apply Forall_forall. intros v Hv.
    apply in_map_iff in Hv. destruct Hv as (a & <- & _).
    apply parses_back_attachment.
Qed.

(** *** Reachable states *)

(** No handler lets an exception escape. *)
Lemma handler_returns (ev : event) (r s : State) (l : list effect) :
  snd (handler ev r (s, l)) = inl tt.
Proof.
  destruct ev; run_m; try reflexivity.
  - destruct p as [payload |]; [| reflexivity]. simpl.
    destruct (JSON_parse payload) as [[] |]; reflexivity.
  - destruct (trim (manualCode r)); [reflexivity |]. simpl.
    now destruct (normalize (manualCode r)).
  - destruct resp as [[[] |] |]; simpl; try reflexivity;
      now destruct (normalize _).
  - now destruct (sessionCode r).
  - now destruct (socketRef s).
  - destruct file as [f |]; [| reflexivity].
    now destruct (MAX_FILE_SIZE <? fsize f).
  - destruct (nth_error (readers r) i); [| reflexivity].
    now destruct result.
  - now destruct (nth_error (readers r) i).
  - destruct (hasUnsavedChanges r); [| reflexivity]. simpl.
    destruct (Status_eqb (status r) connected); [| reflexivity]. simpl.
    destruct (saveTimerRef s); simpl; now destruct (socketRef s).
  - destruct (falsy (text r) && Nat.eqb (List.length (attachments r)) 0);
      [reflexivity |].
    simpl. now destruct (socketRef s).
Qed.

(** What the handler of an event does to the fields that decide the
    room: nothing, a join with a non-empty normalised code, or the
    return to the local room. *)
Lemma handler_room (ev : event) (s : State) :
  enabled ev s = true ->
  let s1 := state_after (handler ev s) s in
  (mode s1 = mode s /\ sessionCode s1 = sessionCode s
   /\ socketRef s1 = socketRef s)
  \/ (exists c, normalize c <> [] /\ mode s1 = remote
                /\ sessionCode s1 = normalize c
                /\ socketRef s1 = socketRef s)
  \/ (mode s = remote /\ mode s1 = local /\ sessionCode s1 = []
      /\ socketRef s1 = None).
Proof.
  intros Hen.
  assert (Hjoin : forall c,
    let s1 := state_after (startRemoteSession (Some (JStr c))) s in
    (mode s1 = mode s /\ sessionCode s1 = sessionCode s
     /\ socketRef s1 = socketRef s)
    \/ (exists c, normalize c <> [] /\ mode s1 = remote
                  /\ sessionCode s1 = normalize c
                  /\ socketRef s1 = socketRef s)).
  { intros c. run_m. destruct (normalize c) eqn:E; [left; now auto |].
    right. exists c. rewrite E. simpl. repeat split; congruence. }
  destruct ev; try (left; run_m; now auto).
  - left. run_m. destruct p as [payload |]; [| now auto]. simpl.
    destruct (JSON_parse payload) as [[] |]; simpl; now auto.
  - unfold handler, joinWithCode.
    destruct (falsy (trim (manualCode s))); [left; now auto |].
    destruct (Hjoin (manualCode s)) as [H | H]; [left | right; left]; exact H.
  - destruct resp as [[[] |] |]; try (left; run_m; now auto).
    specialize (Hjoin s0). revert Hjoin. run_m.
    destruct (falsy (normalize s0)); simpl; tauto.
  - left. run_m. destruct (falsy (sessionCode s)); simpl; now auto.
  - right; right. simpl in Hen. unfold isLocalMode in Hen.
    destruct (mode s) eqn:Em; [discriminate |].
    run_m. destruct (socketRef s); simpl; now auto.
  - left. run_m. destruct file as [f |]; [| now auto].
    destruct (MAX_FILE_SIZE <? fsize f); simpl; now auto.
  - left. run_m. destruct (nth_error (readers s) i); [| now auto].
    destruct result; simpl; now auto.
  - left. run_m. destruct (nth_error (readers s) i); simpl; now auto.
  - left. run_m. destruct (hasUnsavedChanges s); [| now auto]. simpl.
    destruct (Status_eqb (status s) connected); [| now auto]. simpl.
    destruct (saveTimerRef s); simpl;
      destruct (socketRef s) eqn:Es; simpl; rewrite ?Es; now auto.
  - left. run_m.
    destruct (falsy (text s) && Nat.eqb (List.length (attachments s)) 0);
      [now auto |].
    simpl. destruct (socketRef s) eqn:Es; simpl; rewrite ?Es; now auto.
Qed.

(** The reaction to an event: the handler, then a new channel exactly
    when the room changed. *)
Lemma step_state_fields (ev : event) (s : State) :
  let s1 := state_after (handler ev s) s in
  let s2 := step_state s ev in
  let same := jsstring_eqb (roomCode s) (roomCode s1) in
  mode s2 = mode s1 /\ sessionCode s2 = sessionCode s1
  /\ text s2 = text s1 /\ attachments s2 = attachments s1
  /\ hasUnsavedChanges s2 = hasUnsavedChanges s1
  /\ socketRef s2
     = (if same then socketRef s1
        else if falsy (roomCode s1) then None else Some (roomCode s1))
  /\ status s2
     = (if same then status s1
        else if falsy (roomCode s1) then waiting else connecting).
Proof.
  unfold step_state, dispatch, state_after, exec, bind.
  pose proof (handler_returns ev s s []) as Hret.
  destruct (handler ev s (s, [])) as [[s1 l] r]. simpl in Hret. subst r.
  cbv [rerunEffect bind read roomCleanup roomEffect modify perform ret].
  simpl.
  destruct (jsstring_eqb (roomCode s) (roomCode s1));
    [simpl; repeat split; reflexivity |].
  destruct (falsy (roomCode s)), (falsy (roomCode s1)); simpl;
    try (repeat split; reflexivity);
    destruct (socketRef s1) eqn:Es; simpl; rewrite ?Es;
    repeat split; reflexivity.
Qed.

Lemma normalized_not_local_room (c : jsstring) :
  normalize c = c -> jsstring_eqb c LOCAL_ROOM = false.
Proof.
  intros H. destruct (jsstring_eqb c LOCAL_ROOM) eqn:E; [| reflexivity].
  apply jsstring_eqb_eq in E. subst c.
  pose proof (normalize_short LOCAL_ROOM) as Hm.
  rewrite H in Hm. simpl in Hm. lia.
Qed.

Lemma reachable_room_inv (s : State) : reachable s -> room_inv s.
Proof.
  induction 1 as [| s ev _ IH Hen].
  - unfold room_inv. repeat split; discriminate.
  - destruct IH as (Hsock & Hnorm & Hcode).
    pose proof (step_state_fields ev s) as Hf. simpl in Hf.
    destruct Hf as (Hm & Hc & _ & _ & _ & Hs & _).
    unfold room_inv, roomCode, isLocalMode in *.
    rewrite Hm, Hc, Hs. clear Hm Hc Hs.
    destruct (handler_room ev s Hen)
      as [(Em & Ec & Es) | [(c & Hne & Em & Ec & Es) | (Er & Em & Ec & Es)]];
      rewrite Em, Ec, Es.
    + destruct (mode s); rewrite jsstring_eqb_refl; auto.
    + rewrite (normalize_fixed (normalize c))
        by (apply normalize_code_chars || apply normalize_short).
      repeat split; [| intros _; exact Hne].
      destruct (mode s).
      * rewrite Hsock.
        destruct (jsstring_eqb LOCAL_ROOM (normalize c)) eqn:E.
        -- apply jsstring_eqb_eq in E. now rewrite E.
        -- now destruct (normalize c).
      * rewrite Hsock.
        destruct (jsstring_eqb (sessionCode s) (normalize c)) eqn:E.
        -- apply jsstring_eqb_eq in E. now rewrite E.
        -- now destruct (normalize c).
    + rewrite Er. rewrite (normalized_not_local_room _ Hnorm).
      split; [reflexivity | split; [reflexivity | discriminate]].
Qed.

(** *** What save and clear do *)

Lemma exec_handleSave (s : State) :
  exec (handleSave s) s
  = if negb (hasUnsavedChanges s) then ((s, []), inl tt)
    else if negb (Status_eqb (status s) connected)
    then ((s, [Alert notReady]), inl tt)
    else ((set_saveTimerRef true
             (set_hasUnsavedChanges false (set_isSaving true s)),
           (if saveTimerRef s then [ClearTimeout] else [])
           ++ match socketRef s with
              | Some k => [Emit k (lit "update-data")
                             (payload_of (text s) (attachments s))]
              | None => []
              end
           ++ [SetTimeout 600]),
          inl tt).
Proof.
  run_m. destruct (hasUnsavedChanges s); [| reflexivity]. simpl.
  destruct (Status_eqb (status s) connected); [| reflexivity]. simpl.
  destruct (saveTimerRef s); simpl; destruct (socketRef s); reflexivity.
Qed.

Lemma exec_handleClear (s : State) :
  exec (handleClear s) s
  = if falsy (text s) && Nat.eqb (List.length (attachments s)) 0
    then ((s, []), inl tt)
    else ((set_hasUnsavedChanges false (set_attachments [] (set_text [] s)),
           match socketRef s with
           | Some k => [Emit k (lit "update-data") (payload_of [] [])]
           | None => []
           end),
          inl tt).
Proof.
  run_m.
  destruct (falsy (text s) && Nat.eqb (List.length (attachments s)) 0);
    [reflexivity |].
  simpl. destruct (socketRef s); reflexivity.
Qed.

Lemma emitted_app (a b : list effect) :
  emitted (a ++ b) = emitted a ++ emitted b.
Proof.
  induction a as [| e a IH]; simpl; [reflexivity |].
  destruct e; simpl; now rewrite IH.
Qed.


(** Save and clear leave the room alone, so their handler is the whole
    reaction. *)
Lemma dispatch_save (s : State) :
  exec (dispatch EvSave s) s = exec (handleSave s) s.
Proof.
  apply dispatch_same_room.
  - apply (handler_returns EvSave s s []).
  - unfold state_after. simpl handler. rewrite exec_handleSave.
    destruct (negb (hasUnsavedChanges s)); [reflexivity |].
    destruct (negb (Status_eqb (status s) connected)); reflexivity.
Qed.

Lemma dispatch_clear (s : State) :
  exec (dispatch EvClear s) s = exec (handleClear s) s.
Proof.
  apply dispatch_same_room.
  - apply (handler_returns EvClear s s []).
  - unfold state_after. simpl handler. rewrite exec_handleClear.
    destruct (falsy (text s) && Nat.eqb (List.length (attachments s)) 0);
      reflexivity.
Qed.

Lemma Status_eqb_eq (a b : Status) : Status_eqb a b = true <-> a = b.
Proof. destruct a, b; simpl; split; congruence. Qed.


(** C2 (amended): the code pipeline yields at most six characters, all of
    them upper-case ASCII letters or digits; its length is six exactly
    when at least six such characters survive the stripping;
    [startRemoteSession] joins with that result whenever it is not
    empty, however short, and [handleCodeChange] shows it in the code
    field.  The minimal variant's [joinSession] only trims and
    upper-cases. *)
Theorem normalize_at_most_six_code_chars (x : jsstring) :
  (List.length (normalize x) <= 6)%nat /\
  Forall (fun c => is_code_char c = true) (normalize x) /\
  List.length (normalize x)
  = Nat.min 6 (List.length (strip_non_code (toUpperCase upperNonAscii x))) /\
  (forall s : State,
     exec (startRemoteSession (Some (JStr x))) s
     = if falsy (normalize x) then ((s, []), inl tt)
       else ((set_infoTab tab_remote
                (set_manualCode (normalize x)
                   (set_sessionCode (normalize x) (set_mode remote s))), []),
             inl tt)) /\
  (forall s : State,
     exec (handleCodeChange x) s
     = ((set_manualCode (normalize x) s, []), inl tt)) /\
  (forall m : Minimal.State,
     exec (Minimal.joinSession upperNonAscii x) m
     = if falsy (toUpperCase upperNonAscii (trim x)) then ((m, []), inl tt)
       else ((Minimal.set_mode remote
                (Minimal.set_sessionCode
                   (toUpperCase upperNonAscii (trim x)) m), []),
             inl tt)).
Proof.
  split; [| split; [| split; [| split; [| split]]]].
  - apply normalize_short.
  - apply normalize_code_chars.
  - apply normalize_length.
  - intros s. run_m. now destruct (normalize x).
  - intros s. reflexivity.
  - intros m. unfold Minimal.joinSession.
    now destruct (toUpperCase upperNonAscii (trim x)).
Qed.

(** *** Attachments *)

(** C8: a file above [MAX_FILE_SIZE] (5 MiB) is turned away at once: the
    reaction leaves every state field as it was, starts no reader and
    only shows the notice and resets the input. *)
Theorem oversize_file_rejected (f : File) (s : State) :
  MAX_FILE_SIZE < fsize f ->
  MAX_FILE_SIZE = 5242880 /\
  exec (dispatch (EvFileSelected (Some f)) s) s
  = ((s, [Alert tooLarge; ResetInput]), inl tt).
Proof.
  intros Hbig. split; [reflexivity |].
  assert (Hh : exec (handler (EvFileSelected (Some f)) s) s
               = ((s, [Alert tooLarge; ResetInput]), inl tt)).
  { apply N.ltb_lt in Hbig. run_m. now rewrite Hbig. }
  destruct (exec_parts _ _ _ _ _ Hh) as (Hs & _ & Ho).
  rewrite dispatch_same_room; [exact Hh | exact Ho | now rewrite Hs].
Qed.

(** *** Clear *)

(** C10: clearing a document that is already empty does nothing at all:
    no state field changes and nothing is emitted. *)
Theorem clear_on_empty_is_noop (s : State) :
  text s = [] -> attachments s = [] ->
  exec (dispatch EvClear s) s = ((s, []), inl tt).
Proof.
  intros Ht Ha.
  assert (Hh : exec (handler EvClear s) s = ((s, []), inl tt)).
  { run_m. now rewrite Ht, Ha. }
  destruct (exec_parts _ _ _ _ _ Hh) as (Hs & _ & Ho).
  rewrite dispatch_same_room; [exact Hh | exact Ho | now rewrite Hs].
Qed.

(** C6 (amended): in a reachable state whose document is not empty,
    clearing empties text and attachments, clears the unsaved flag and
    emits the empty document exactly once on the bound channel, whatever
    the connection status and the unsaved flag were. *)
Theorem clear_resets_and_pushes (s : State) :
  reachable s ->
  text s <> [] \/ attachments s <> [] ->
  exec (dispatch EvClear s) s
  = ((set_hasUnsavedChanges false (set_attachments [] (set_text [] s)),
      [Emit (roomCode s) (lit "update-data") (payload_of [] [])]),
     inl tt)
  /\ payload_of [] []
     = [123; 34] ++ lit "text" ++ [34; 58; 34; 34; 44; 34]
       ++ lit "attachments" ++ [34; 58; 91; 93; 125].
Proof.
  intros Hr Hne. split; [| reflexivity].
  destruct (reachable_room_inv s Hr) as (Hsock & _).
  rewrite dispatch_clear, exec_handleClear, Hsock.
  destruct (text s) as [| c t]; [| reflexivity].
  destruct (attachments s) as [| a l]; [| reflexivity].
  destruct Hne as [H | H]; now elim H.
Qed.

(** *** Save *)

(** What the inbound handler does with a string payload. *)
Lemma inbound_payload_doc (payload : jsstring) (s : State) :
  exec (onSyncData (PString payload)) s
  = ((set_hasUnsavedChanges false
        (set_attachments (snd (inbound_doc payload))
           (set_text (fst (inbound_doc payload)) s)), []),
     inl tt)
  /\ hasUnsavedChanges (state_after (onSyncData (PString payload)) s) = false.
Proof.
  unfold inbound_doc. run_m.
  split; destruct (JSON_parse payload) as [[] |]; reflexivity.
Qed.

(** The payload letter by letter: the two members in the order of the
    object literal, the text quoted, the attachments in an array. *)
Lemma payload_of_spelled (t : jsstring) (a : list json) :
  payload_of t a
  = [123; 34] ++ lit "text" ++ [34; 58] ++ QuoteJSONString t
    ++ [44; 34] ++ lit "attachments" ++ [34; 58; 91]
    ++ join_comma (map stringify a) ++ [93; 125].
Proof.
  unfold payload_of. cbn [stringify map join_comma].
  change (QuoteJSONString (lit "text")) with ([34] ++ lit "text" ++ [34]).
  change (QuoteJSONString (lit "attachments"))
    with ([34] ++ lit "attachments" ++ [34]).
  repeat (rewrite <- ?app_assoc, <- ?app_comm_cons). reflexivity.
Qed.

(** What a payload made of a text and attachment records installs at
    whoever receives it. *)
Lemma payload_installs (t : jsstring) (atts : list Attachment)
    (receiver : State) :
  let r' := state_after
              (onSyncData (PString (payload_of t (map attachment_object atts))))
              receiver in
  text r' = t /\ attachments r' = map attachment_object atts
  /\ hasUnsavedChanges r' = false.
Proof.
  destruct (inbound_payload_doc
              (payload_of t (map attachment_object atts)) receiver) as [H _].
  unfold state_after. rewrite H. unfold inbound_doc.
  rewrite JSON_parse_payload_of. simpl. repeat split.
Qed.

(** C4: a save with nothing unsaved or without a live connection changes
    no state and emits nothing; in a reachable state with unsaved
    changes and a live connection it emits the current document exactly
    once, as [update-data] on the channel of the current room, and
    clears the unsaved flag, and a second save right after it does
    nothing at all.  What is emitted is the current document: the text
    of the payload is the JSON object of the current text and
    attachments, and for a document of attachment records whoever
    receives it installs exactly the sender's text and attachments. *)
Theorem save_pushes_once (s : State) :
  reachable s ->
  (hasUnsavedChanges s = false \/ status s <> connected ->
   state_after (dispatch EvSave s) s = s
   /\ emitted (effects_of (dispatch EvSave s) s) = [])
  /\ (hasUnsavedChanges s = true -> status s = connected ->
      let s' := step_state s EvSave in
      let pushed := payload_of (text s) (attachments s) in
      emitted (effects_of (dispatch EvSave s) s) = [pushed]
      /\ In (Emit (roomCode s) (lit "update-data") pushed)
            (effects_of (dispatch EvSave s) s)
      /\ pushed
         = [123; 34] ++ lit "text" ++ [34; 58] ++ QuoteJSONString (text s)
           ++ [44; 34] ++ lit "attachments" ++ [34; 58; 91]
           ++ join_comma (map stringify (attachments s)) ++ [93; 125]
      /\ (forall (atts : list Attachment) (receiver : State),
            attachments s = map attachment_object atts ->
            let r' := state_after (onSyncData (PString pushed)) receiver in
            text r' = text s /\ attachments r' = attachments s)
      /\ hasUnsavedChanges s' = false
      /\ text s' = text s /\ attachments s' = attachments s
      /\ status s' = connected
      /\ exec (dispatch EvSave s') s' = ((s', []), inl tt)).
Proof.
  intros Hr. destruct (reachable_room_inv s Hr) as (Hsock & _).
  split.
  - intros Hblocked.
    unfold state_after, effects_of.
    rewrite dispatch_save, exec_handleSave.
    destruct (hasUnsavedChanges s); simpl; [| now split].
    destruct (Status_eqb (status s) connected) eqn:E; simpl; [| now split].
    apply Status_eqb_eq in E. destruct Hblocked; [discriminate | contradiction].
  - intros Hu Hc s' pushed.
    assert (Hs' : s' = set_saveTimerRef true
                         (set_hasUnsavedChanges false (set_isSaving true s))).
    { unfold s', step_state, state_after.
      rewrite dispatch_save, exec_handleSave, Hu, Hc. reflexivity. }
    assert (Heff : effects_of (dispatch EvSave s) s
                   = (if saveTimerRef s then [ClearTimeout] else [])
                     ++ [Emit (roomCode s) (lit "update-data") pushed]
                     ++ [SetTimeout 600]).
    { unfold effects_of.
      rewrite dispatch_save, exec_handleSave, Hu, Hc, Hsock. reflexivity. }
    rewrite Heff.
    split; [| split; [| split; [| split]]].
    + rewrite emitted_app. simpl. now destruct (saveTimerRef s).
    + apply in_or_app. right. now left.
    + apply payload_of_spelled.
    + intros atts receiver Hatts r'. unfold r', pushed. rewrite Hatts.
      destruct (payload_installs (text s) atts receiver) as (Ht & Ha & _).
      split; [exact Ht | exact Ha].
    + rewrite dispatch_save, exec_handleSave, Hs'. simpl.
      rewrite Hc. now auto 10.
Qed.

(** *** Pushes and the connection status *)


(** *** Inbound snapshots *)

(** C1: for every string payload the inbound handler returns normally,
    does nothing to the outside world and leaves the unsaved flag
    cleared.  A payload that is not JSON text, or is the text [null], is
    taken whole as the text, with no attachments; one that parses to a
    number, a string, a boolean or an array gives the empty document;
    one that parses to an object gives its [text] member if that is a
    string (else the empty text) and its [attachments] member if that is
    an array (else none).  The minimal variant takes every string
    payload as the text. *)
Theorem inbound_never_throws (payload : jsstring) (s : State) :
  let doc :=
    match JSON_parse payload with
    | None | Some JNull => (payload, [])
    | Some (JObj o) =>
        (match obj_get (lit "text") o with Some (JStr x) => x | _ => [] end,
         match obj_get (lit "attachments") o with
         | Some (JArr l) => l
         | _ => []
         end)
    | Some _ => ([], [])
    end in
  exec (onSyncData (PString payload)) s
  = ((set_hasUnsavedChanges false
        (set_attachments (snd doc) (set_text (fst doc) s)), []),
     inl tt)
  /\ hasUnsavedChanges (state_after (onSyncData (PString payload)) s) = false
  /\ forall m : Minimal.State,
       exec (Minimal.onSyncData (Some payload)) m
       = ((Minimal.set_text payload m, []), inl tt).
Proof.
  intros doc. destruct (inbound_payload_doc payload s) as [H1 H2].
  split; [exact H1 | split; [exact H2 | reflexivity]].
Qed.

(** The payloads of the specification's scenarios: a structured
    snapshot, text that is not JSON, and the empty string. *)
Example parse_structured :
  JSON_parse ([123; 34] ++ lit "text" ++ [34; 58; 34] ++ lit "hi"
              ++ [34; 44; 34] ++ lit "attachments" ++ [34; 58; 91; 93; 125])
  = Some (JObj [(lit "text", JStr (lit "hi"));
                (lit "attachments", JArr [])]).
Proof. reflexivity. Qed.

Example parse_not_json : JSON_parse (lit "not json") = None.
Proof. reflexivity. Qed.

Example parse_empty : JSON_parse [] = None.
Proof. reflexivity. Qed.

(** An object cut off after its first colon. *)
Example parse_truncated :
  JSON_parse ([123; 34] ++ lit "text" ++ [34; 58]) = None.
Proof. reflexivity. Qed.

Example apply_structured (s : State) :
  state_after
    (onSyncData
       (PString ([123; 34] ++ lit "text" ++ [34; 58; 34] ++ lit "hi"
                 ++ [34; 44; 34] ++ lit "attachments"
                 ++ [34; 58; 91; 93; 125]))) s
  = set_hasUnsavedChanges false (set_attachments [] (set_text (lit "hi") s)).
Proof. reflexivity. Qed.

Example apply_not_json (s : State) :
  state_after (onSyncData (PString (lit "not json"))) s
  = set_hasUnsavedChanges false
      (set_attachments [] (set_text (lit "not json") s)).
Proof. reflexivity. Qed.

(** C5: a document whose attachments are attachment records survives
    the wire: [syncPayload] emits [payload_of] the document on the bound
    channel, and applying that payload, in any state, installs exactly
    that text and those attachments. *)
Theorem serialize_then_apply (t : jsstring) (atts : list Attachment)
    (s : State) :
  exec (onSyncData (PString (payload_of t (map attachment_object atts)))) s
  = ((set_hasUnsavedChanges false
        (set_attachments (map attachment_object atts) (set_text t s)), []),
     inl tt)
  /\ forall (sender : State) (k : socket),
       socketRef sender = Some k ->
       exec (syncPayload t (map attachment_object atts)) sender
       = ((sender, [Emit k (lit "update-data")
                      (payload_of t (map attachment_object atts))]),
          inl tt).
Proof.
  split.
  - destruct (inbound_payload_doc
                (payload_of t (map attachment_object atts)) s) as [H _].
    rewrite H. unfold inbound_doc. rewrite JSON_parse_payload_of.
    reflexivity.
  - intros sender k Hk. run_m. now rewrite Hk.
Qed.

(** *** Room resolution *)


(* ================================================================== *)
(** ** Further properties *)

(** *** What a reaction does, event by event *)

Lemma dispatch_unfold (ev : event) (s : State) :
  exec (dispatch ev s) s = rerunEffect s (fst (exec (handler ev s) s)).
Proof.
  unfold dispatch, exec, bind.
  pose proof (handler_returns ev s s []) as Hret.
  destruct (handler ev s (s, [])) as [[s1 l] r]. simpl in Hret. now subst r.
Qed.

(** The effect re-run between two rooms that are both present. *)
Lemma rerun_live (s s1 : State) (l : list effect) :
  falsy (roomCode s) = false -> falsy (roomCode s1) = false ->
  rerunEffect s (s1, l)
  = if jsstring_eqb (roomCode s) (roomCode s1) then ((s1, l), inl tt)
    else ((set_socketRef (Some (roomCode s1))
             (set_status connecting (set_socketRef None s1)),
           (l ++ [Disconnect (roomCode s)]) ++ [Connect (roomCode s1)]),
          inl tt).
Proof.
  intros H H1.
  cbv [rerunEffect bind read roomCleanup roomEffect modify perform ret].
  simpl. destruct (jsstring_eqb (roomCode s) (roomCode s1)); [reflexivity |].
  now rewrite H, H1.
Qed.

Lemma reachable_room_present (s : State) :
  reachable s -> falsy (roomCode s) = false.
Proof.
  intros Hr. destruct (reachable_room_inv s Hr) as (_ & _ & Hcode).
  unfold roomCode, isLocalMode. destruct (mode s); [reflexivity |].
  destruct (sessionCode s); [now elim Hcode | reflexivity].
Qed.

Lemma channel_after_app (open : option socket) (a b : list effect) :
  channel_after open (a ++ b)
  = match channel_after open a with
    | Some o => channel_after o b
    | None => None
    end.
Proof.
  revert open. induction a as [| e a IH]; intros open; [reflexivity |].
  destruct e; simpl; try apply IH.
  - destruct open; [reflexivity | apply IH].
  - destruct open; apply IH.
  - destruct open as [k' |]; [| reflexivity].
    destruct (jsstring_eqb sock k'); [apply IH | reflexivity].
Qed.

Lemma channel_after_quiet (open : option socket) (l : list effect) :
  filter is_channel_effect l = [] -> channel_after open l = Some open.
Proof.
  induction l as [| e l IH]; [reflexivity |].
  destruct e; simpl; try discriminate; exact IH.
Qed.

(** The three shapes of a handler's work, with everything the session
    depends on: it stays in the room (emitting at most once, on the
    bound channel), it joins the room of a non-empty normalised code, or
    it returns to the local room. *)
Inductive handled (s s1 : State) (l : list effect) : Prop :=
| handled_stay :
    mode s1 = mode s -> sessionCode s1 = sessionCode s ->
    socketRef s1 = socketRef s ->
    (manualCode s1 = manualCode s \/ exists v, manualCode s1 = normalize v) ->
    (status s1 = status s \/ status s1 = connected
     \/ status s1 = disconnected \/ status s1 = error) ->
    (filter is_channel_effect l = []
     \/ exists k p, socketRef s = Some k
                    /\ filter is_channel_effect l
                       = [Emit k (lit "update-data") p]) ->
    handled s s1 l
| handled_join (c : jsstring) :
    normalize c <> [] ->
    mode s1 = remote -> sessionCode s1 = normalize c ->
    manualCode s1 = normalize c -> socketRef s1 = socketRef s ->
    status s1 = status s -> text s1 = text s ->
    attachments s1 = attachments s ->
    hasUnsavedChanges s1 = hasUnsavedChanges s ->
    filter is_channel_effect l = [] ->
    handled s s1 l
| handled_reset :
    mode s = remote ->
    mode s1 = local -> sessionCode s1 = [] -> manualCode s1 = [] ->
    socketRef s1 = None -> text s1 = [] -> attachments s1 = [] ->
    hasUnsavedChanges s1 = false ->
    filter is_channel_effect l
    = match socketRef s with Some k => [Disconnect k] | None => [] end ->
    handled s s1 l.

Ltac stay := apply handled_stay; simpl; auto 6.

Lemma handled_startRemoteSession (c : jsstring) (s : State) :
  handled s (state_after (startRemoteSession (Some (JStr c))) s)
    (effects_of (startRemoteSession (Some (JStr c))) s).
Proof.
  run_m. destruct (normalize c) eqn:E; simpl; [stay |].
  apply (handled_join _ _ _ c); simpl; rewrite ?E; auto; discriminate.
Qed.

Lemma handler_handled (ev : event) (s : State) :
  enabled ev s = true ->
  handled s (state_after (handler ev s) s) (effects_of (handler ev s) s).
Proof.
  intros Hen. destruct ev; try (run_m; now stay).
  - (* sync-data *)
    run_m. destruct p as [payload |]; [| now stay]. simpl.
    destruct (JSON_parse payload) as [[] |]; simpl; now stay.
  - (* code field *)
    run_m. apply handled_stay; simpl; auto. right. now exists value.
  - (* join *)
    unfold handler, joinWithCode.
    destruct (falsy (trim (manualCode s))); [run_m; now stay |].
    apply handled_startRemoteSession.
  - (* session response *)
    destruct resp as [[[] |] |]; try (run_m; now stay).
    run_m. destruct (normalize s0) eqn:E; simpl; [now stay |].
    apply (handled_join _ _ _ s0); simpl; rewrite ?E; auto; discriminate.
  - (* mobile shortcut *)
    run_m. destruct (falsy (sessionCode s)); simpl; now stay.
  - (* reset *)
    simpl in Hen. unfold isLocalMode in Hen.
    destruct (mode s) eqn:Em; [discriminate |].
    run_m. destruct (socketRef s) eqn:Es; simpl;
      apply handled_reset; simpl; rewrite ?Es; auto.
  - (* file selected *)
    run_m. destruct file as [f |]; [| now stay].
    destruct (MAX_FILE_SIZE <? fsize f); simpl; now stay.
  - (* reader load *)
    run_m. destruct (nth_error (readers s) i); [| now stay].
    destruct result; simpl; now stay.
  - (* reader error *)
    run_m. destruct (nth_error (readers s) i); simpl; now stay.
  - (* save *)
    unfold state_after, effects_of. simpl handler. rewrite exec_handleSave.
    destruct (negb (hasUnsavedChanges s)); [now stay |].
    destruct (negb (Status_eqb (status s) connected)); [now stay |].
    apply handled_stay; simpl; auto 6.
    rewrite !filter_app.
    destruct (saveTimerRef s), (socketRef s) as [k |]; simpl; auto;
      right; now exists k, (payload_of (text s) (attachments s)).
  - (* clear *)
    unfold state_after, effects_of. simpl handler. rewrite exec_handleClear.
    destruct (falsy (text s) && Nat.eqb (List.length (attachments s)) 0);
      [now stay |].
    apply handled_stay; simpl; auto 6.
    destruct (socketRef s) as [k |]; simpl; auto.
    right. now exists k, (payload_of [] []).
Qed.

(** The effect re-run leaves every field but the status and the channel
    ref as the handler left it. *)
Lemma step_state_frame (ev : event) (s : State) :
  let s1 := state_after (handler ev s) s in
  let s2 := step_state s ev in
  manualCode s2 = manualCode s1 /\ infoTab s2 = infoTab s1
  /\ isGenerating s2 = isGenerating s1 /\ isUploading s2 = isUploading s1
  /\ isSaving s2 = isSaving s1 /\ saveTimerRef s2 = saveTimerRef s1
  /\ readers s2 = readers s1.
Proof.
  unfold step_state, dispatch, state_after, exec, bind.
  pose proof (handler_returns ev s s []) as Hret.
  destruct (handler ev s (s, [])) as [[s1 l] r]. simpl in Hret. subst r.
  cbv [rerunEffect bind read roomCleanup roomEffect modify perform ret].
  simpl.
  destruct (jsstring_eqb (roomCode s) (roomCode s1));
    [simpl; repeat split; reflexivity |].
  destruct (falsy (roomCode s)), (falsy (roomCode s1)); simpl;
    try (repeat split; reflexivity);
    destruct (socketRef s1) eqn:Es; simpl; rewrite ?Es;
    repeat split; reflexivity.
Qed.

Lemma reachable_session_inv (s : State) : reachable s -> session_inv s.
Proof.
  induction 1 as [| s ev Hr IH Hen].
  - unfold session_inv. simpl. repeat split; try discriminate; reflexivity.
  - destruct IH as (Hloc & Hman & Hidle & Hwait).
    pose proof (reachable_room_present _ Hr) as Hroom.
    pose proof (reachable_room_present _ (reach_step _ _ Hr Hen)) as Hroom2.
    destruct (reachable_room_inv s Hr) as (_ & Hnorm & _).
    pose proof (handler_handled ev s Hen) as Hh.
    pose proof (step_state_fields ev s) as Hf. simpl in Hf.
    destruct Hf as (Hm & Hc & _ & _ & _ & _ & Hst).
    assert (Hroom1 : falsy (roomCode (state_after (handler ev s) s)) = false).
    { unfold roomCode, isLocalMode in *. now rewrite <- Hm, <- Hc. }
    rewrite Hroom1 in Hst.
    pose proof (step_state_frame ev s) as Hfr. simpl in Hfr.
    destruct Hfr as (Hmc & _).
    unfold session_inv. rewrite Hm, Hc, Hmc, Hst.
    destruct Hh as [Em Ec _ Emc Est _ | c Hne Em Ec Emc _ Est _ _ _ _
                   | Er Em Ec Emc _ _ _ _ _].
    + unfold roomCode, isLocalMode. rewrite Em, Ec.
      replace (jsstring_eqb _ _) with true
        by (symmetry; destruct (mode s); apply jsstring_eqb_refl).
      split; [exact Hloc |].
      split; [destruct Emc as [-> | [v ->]]; [exact Hman |
              apply normalize_fixed;
                [apply normalize_code_chars | apply normalize_short]] |].
      destruct Est as [-> | [-> | [-> | ->]]];
        (split; [assumption || discriminate | assumption || discriminate]).
    + rewrite Em, Ec, Emc.
      split; [discriminate |].
      split; [apply normalize_fixed;
                [apply normalize_code_chars | apply normalize_short] |].
      destruct (jsstring_eqb _ _); [rewrite Est; now split |].
      split; discriminate.
    + rewrite Em, Ec, Emc.
      split; [reflexivity |]. split; [reflexivity |].
      unfold roomCode, isLocalMode. rewrite Er, Em.
      rewrite (normalized_not_local_room _ Hnorm).
      split; discriminate.
Qed.

Lemma channel_after_filter (open : option socket) (l : list effect) :
  channel_after open l = channel_after open (filter is_channel_effect l).
Proof.
  revert open. induction l as [| e l IH]; intros open; [reflexivity |].
  destruct e; simpl; try apply IH.
  - destruct open; [reflexivity | apply IH].
  - destruct open; apply IH.
  - destruct open as [k' |]; [| reflexivity].
    destruct (jsstring_eqb sock k'); [apply IH | reflexivity].
Qed.

(** *** Channels *)

(** X1: in every reachable state the reaction to any event uses the
    channels in order: it never opens a channel while another is open,
    it emits only on the open channel, and it ends with exactly the
    channel of the room the component is then in. *)
Theorem one_channel_at_a_time (s : State) (ev : event) :
  reachable s -> enabled ev s = true ->
  channel_after (socketRef s) (effects_of (dispatch ev s) s)
  = Some (socketRef (step_state s ev))
  /\ socketRef (step_state s ev) = Some (roomCode (step_state s ev)).
Proof.
  intros Hr Hen.
  pose proof (reach_step _ _ Hr Hen) as Hr2.
  destruct (reachable_room_inv _ Hr2) as (Hsock2 & _).
  split; [| exact Hsock2].
  destruct (reachable_room_inv _ Hr) as (Hsock & Hnorm & _).
  pose proof (reachable_room_present _ Hr) as Hroom.
  pose proof (handler_handled ev s Hen) as Hh.
  pose proof (step_state_fields ev s) as Hf. simpl in Hf.
  destruct Hf as (Hm & Hc & _).
  assert (Hroom1 : falsy (roomCode (state_after (handler ev s) s)) = false).
  { pose proof (reachable_room_present _ Hr2) as H.
    unfold roomCode, isLocalMode in *. now rewrite <- Hm, <- Hc. }
  unfold step_state, state_after at 1, effects_of at 1.
  rewrite dispatch_unfold.
  unfold state_after, effects_of, exec in Hh, Hroom1.
  unfold exec. destruct (handler ev s (s, [])) as [[s1 l] r].
  simpl fst in *. simpl snd in *.
  rewrite rerun_live by assumption. rewrite Hsock.
  destruct Hh as [Em Ec Es _ _ Ech | c Hne Em Ec _ Es _ _ _ _ Ech
                 | Er Em Ec _ Es _ _ _ Ech].
  - assert (Esame : roomCode s1 = roomCode s)
      by (unfold roomCode, isLocalMode; now rewrite Em, Ec).
    rewrite Esame, jsstring_eqb_refl. simpl.
    rewrite channel_after_filter, Es, Hsock.
    destruct Ech as [-> | (k & p & Hk & ->)]; [reflexivity |].
    rewrite Hsock in Hk. injection Hk as <-. simpl.
    now rewrite jsstring_eqb_refl.
  - destruct (jsstring_eqb (roomCode s) (roomCode s1)) eqn:E; simpl.
    + rewrite channel_after_filter, Ech, Es, Hsock. reflexivity.
    + rewrite !channel_after_app, channel_after_filter, Ech. simpl.
      now rewrite jsstring_eqb_refl.
  - assert (E : jsstring_eqb (roomCode s) (roomCode s1) = false).
    { unfold roomCode, isLocalMode. rewrite Er, Em.
      now apply normalized_not_local_room. }
    rewrite E. simpl.
    rewrite !channel_after_app, channel_after_filter, Ech, Hsock. simpl.
    now rewrite jsstring_eqb_refl.
Qed.

(** *** Sessions *)

(** X2: once the component is mounted its status is never [idle] or
    [waiting]: the room is never empty, so the branch of the effect that
    waits for a code is never taken. *)
Theorem status_never_waiting (s : State) :
  reachable s ->
  (status s = connecting \/ status s = connected
   \/ status s = disconnected \/ status s = error)
  /\ roomCode s <> [].
Proof.
  intros Hr. destruct (reachable_session_inv _ Hr) as (_ & _ & Hi & Hw).
  split.
  - destruct (status s); auto; [now elim Hi | now elim Hw].
  - pose proof (reachable_room_present _ Hr) as H.
    now destruct (roomCode s).
Qed.

(** X3: in every reachable state the mode is remote exactly when a
    session code is set, the room is the local one exactly in local
    mode, and the code field holds a normalised code. *)
Theorem mode_follows_session_code (s : State) :
  reachable s ->
  (mode s = remote <-> sessionCode s <> [])
  /\ (roomCode s = LOCAL_ROOM <-> mode s = local)
  /\ normalize (manualCode s) = manualCode s
  /\ (List.length (manualCode s) <= 6)%nat.
Proof.
  intros Hr.
  destruct (reachable_session_inv _ Hr) as (Hloc & Hman & _).
  destruct (reachable_room_inv _ Hr) as (_ & Hnorm & Hrem).
  split; [| split; [| split]].
  - split; [exact Hrem |].
    destruct (mode s); [| reflexivity]. intros H. now elim H; apply Hloc.
  - unfold roomCode, isLocalMode. destruct (mode s); split; try reflexivity.
    + intros E. pose proof (normalized_not_local_room _ Hnorm) as H.
      rewrite E, jsstring_eqb_refl in H. discriminate.
    + discriminate.
  - exact Hman.
  - rewrite <- Hman. apply normalize_short.
Qed.

Lemma code_char_not_space (c : code_unit) :
  is_code_char c = true -> is_js_space c = false.
Proof.
  unfold is_code_char, is_upper, is_digit, is_js_space. intros H.
  apply orb_true_iff in H.
  assert (Hc : 48 <= c <= 90).
  { destruct H as [H | H]; apply andb_true_iff in H; destruct H as [H1 H2];
      apply N.leb_le in H1, H2; lia. }
  repeat match goal with
         | |- context [?x =? ?n] =>
             replace (x =? n) with false by (symmetry; apply N.eqb_neq; lia)
         | |- context [?x <=? ?n] =>
             replace (x <=? n) with false by (symmetry; apply N.leb_gt; lia)
         | |- context [?n <=? c] =>
             replace (n <=? c) with true by (symmetry; apply N.leb_le; lia)
         end.
  reflexivity.
Qed.

Lemma trim_start_code_chars (m : jsstring) :
  Forall (fun c => is_code_char c = true) m -> trim_start m = m.
Proof.
  intros [| c t Hc _]; [reflexivity |]. simpl.
  now rewrite (code_char_not_space c Hc).
Qed.

(** Trimming does nothing to a string of code characters. *)
Lemma trim_code_chars (m : jsstring) :
  Forall (fun c => is_code_char c = true) m -> trim m = m.
Proof.
  intros H. unfold trim. rewrite (trim_start_code_chars m H).
  rewrite trim_start_code_chars; [apply rev_involutive |].
  apply Forall_forall. intros c Hc. apply in_rev in Hc.
  rewrite Forall_forall in H. now apply H.
Qed.

Lemma exec_startRemoteSession (c : jsstring) (s : State) :
  exec (startRemoteSession (Some (JStr c))) s
  = if falsy (normalize c) then ((s, []), inl tt)
    else ((set_infoTab tab_remote
             (set_manualCode (normalize c)
                (set_sessionCode (normalize c) (set_mode remote s))), []),
          inl tt).
Proof. run_m. now destruct (normalize c). Qed.

(** No reaction lets an exception escape. *)
Lemma dispatch_returns (ev : event) (s : State) :
  outcome (dispatch ev s) s = inl tt.
Proof.
  unfold outcome. rewrite dispatch_unfold. unfold exec.
  destruct (handler ev s (s, [])) as [[s1 l] r]. simpl fst.
  cbv [rerunEffect bind read roomCleanup roomEffect modify perform ret].
  simpl.
  destruct (jsstring_eqb (roomCode s) (roomCode s1)); [reflexivity |].
  destruct (falsy (roomCode s)), (falsy (roomCode s1)); simpl;
    try reflexivity; now destruct (socketRef s1).
Qed.

(** X4: in a reachable state the Join button joins exactly the code the
    code field shows: with an empty field it does nothing at all;
    otherwise the session code becomes the shown code, the channel of
    that room is bound, and the document and the unsaved flag are kept
    as they were. *)
Theorem join_uses_shown_code (s : State) :
  reachable s ->
  let s' := step_state s EvJoinWithCode in
  (manualCode s = [] ->
   exec (dispatch EvJoinWithCode s) s = ((s, []), inl tt))
  /\ (manualCode s <> [] ->
      mode s' = remote /\ sessionCode s' = manualCode s
      /\ manualCode s' = manualCode s
      /\ socketRef s' = Some (manualCode s)
      /\ status s'
         = (if jsstring_eqb (roomCode s) (manualCode s) then status s
            else connecting)
      /\ text s' = text s /\ attachments s' = attachments s
      /\ hasUnsavedChanges s' = hasUnsavedChanges s).
Proof.
  intros Hr s'.
  destruct (reachable_session_inv _ Hr) as (_ & Hman & _).
  assert (Hcode : Forall (fun c => is_code_char c = true) (manualCode s))
    by (rewrite <- Hman; apply normalize_code_chars).
  assert (Hh : exec (handler EvJoinWithCode s) s
               = if falsy (manualCode s) then ((s, []), inl tt)
                 else ((set_infoTab tab_remote
                          (set_manualCode (manualCode s)
                             (set_sessionCode (manualCode s)
                                (set_mode remote s))), []), inl tt)).
  { simpl handler. unfold joinWithCode.
    rewrite (trim_code_chars _ Hcode).
    destruct (falsy (manualCode s)) eqn:Ef; [reflexivity |].
    now rewrite exec_startRemoteSession, Hman, Ef. }
  split.
  - intros E. rewrite E in Hh. cbn [falsy] in Hh.
    destruct (exec_parts _ _ _ _ _ Hh) as (Hs & _ & Ho).
    rewrite dispatch_same_room; [exact Hh | exact Ho | now rewrite Hs].
  - intros Hne.
    assert (Hf : falsy (manualCode s) = false)
      by (destruct (manualCode s); [now elim Hne | reflexivity]).
    rewrite Hf in Hh. destruct (exec_parts _ _ _ _ _ Hh) as (Hs & _).
    pose proof (step_state_fields EvJoinWithCode s) as F. simpl in F.
    pose proof (step_state_frame EvJoinWithCode s) as G. simpl in G.
    fold s' in F, G. simpl handler in Hs. simpl handler in F, G.
    rewrite Hs in F, G. simpl in F, G.
    destruct F as (Fm & Fc & Ft & Fa & Fu & _ & Fst).
    destruct G as (Gm & _).
    assert (Hr' : reachable s') by (apply reach_step; [exact Hr | reflexivity]).
    destruct (reachable_room_inv _ Hr') as (Hsock' & _).
    unfold roomCode at 1, isLocalMode in Hsock'. rewrite Fm, Fc in Hsock'.
    unfold roomCode at 2 3, isLocalMode in Fst. simpl in Fst.
    rewrite Hf in Fst.
    repeat split; assumption.
Qed.

(** X5: the session service's answer never escapes as an exception and
    always ends the generating state; the document is kept; a string
    code with at least one letter or digit joins the room of its
    normalised form, a missing or unusable code changes nothing without
    any notice, and a failed request or a code that is not a string
    shows the failure notice and changes nothing else. *)
Theorem session_response_settles (s : State) (resp : option (option json)) :
  reachable s ->
  let s' := step_state s (EvSessionResponse resp) in
  let shown := effects_of (handler (EvSessionResponse resp) s) s in
  outcome (dispatch (EvSessionResponse resp) s) s = inl tt
  /\ isGenerating s' = false
  /\ text s' = text s /\ attachments s' = attachments s
  /\ hasUnsavedChanges s' = hasUnsavedChanges s
  /\ match resp with
     | Some (Some (JStr c)) =>
         shown = []
         /\ if falsy (normalize c)
            then mode s' = mode s /\ sessionCode s' = sessionCode s
            else mode s' = remote /\ sessionCode s' = normalize c
                 /\ manualCode s' = normalize c
                 /\ socketRef s' = Some (normalize c)
     | Some None | Some (Some JNull) =>
         shown = [] /\ mode s' = mode s /\ sessionCode s' = sessionCode s
     | _ =>
         shown = [Alert generateFailed]
         /\ mode s' = mode s /\ sessionCode s' = sessionCode s
     end.
Proof.
  intros Hr s' shown.
  assert (Hr' : reachable s') by (apply reach_step; [exact Hr | reflexivity]).
  destruct (reachable_room_inv _ Hr') as (Hsock' & _).
  pose proof (step_state_fields (EvSessionResponse resp) s) as F.
  pose proof (step_state_frame (EvSessionResponse resp) s) as G.
  simpl in F, G. fold s' in F, G.
  destruct F as (Fm & Fc & Ft & Fa & Fu & _).
  destruct G as (Gm & _ & Gg & _).
  unfold roomCode, isLocalMode in Hsock'.
  rewrite Fm, Fc in Hsock'. rewrite Fm, Fc, Ft, Fa, Fu, Gm, Gg, Hsock'.
  clear Fm Fc Ft Fa Fu Gm Gg.
  split; [apply dispatch_returns |].
  clear Hsock' Hr'. subst shown. clear s'.
  destruct resp as [[[] |] |]; run_m; try (repeat split; reflexivity).
  destruct (normalize s0) eqn:E; simpl; repeat split; reflexivity.
Qed.

(** X6: ending a remote session from a reachable state discards the
    document and the unsaved flag without pushing anything, clears both
    codes, disconnects the session's channel and binds the local room
    with status [connecting]; readers that were started stay pending. *)
Theorem reset_returns_to_local (s : State) :
  reachable s -> mode s = remote ->
  let s' := step_state s EvResetRemoteSession in
  effects_of (dispatch EvResetRemoteSession s) s
  = [Disconnect (sessionCode s); Disconnect (sessionCode s);
     Connect LOCAL_ROOM]
  /\ mode s' = local /\ sessionCode s' = [] /\ manualCode s' = []
  /\ text s' = [] /\ attachments s' = [] /\ hasUnsavedChanges s' = false
  /\ status s' = connecting /\ socketRef s' = Some LOCAL_ROOM
  /\ infoTab s' = tab_none /\ readers s' = readers s
  /\ isUploading s' = isUploading s.
Proof.
  intros Hr Hrem s'.
  destruct (reachable_room_inv _ Hr) as (Hsock & Hnorm & _).
  pose proof (reachable_room_present _ Hr) as Hroom.
  assert (Hroomc : roomCode s = sessionCode s)
    by (unfold roomCode, isLocalMode; now rewrite Hrem).
  rewrite Hroomc in Hsock.
  assert (Hh : exec (handler EvResetRemoteSession s) s
               = ((set_hasUnsavedChanges false
                     (set_infoTab tab_none
                        (set_socketRef None
                           (set_status idle
                              (set_attachments []
                                 (set_text []
                                    (set_manualCode []
                                       (set_sessionCode []
                                          (set_mode local s)))))))),
                   [Disconnect (sessionCode s)]), inl tt)).
  { run_m. now rewrite Hsock. }
  unfold s', step_state, state_after, effects_of.
  rewrite dispatch_unfold, Hh. cbn [fst].
  rewrite rerun_live; [| exact Hroom | reflexivity].
  rewrite Hroomc.
  replace (jsstring_eqb (sessionCode s) (roomCode _)) with false
    by (symmetry; now apply normalized_not_local_room).
  simpl. repeat split.
Qed.

(** *** Inbound snapshots *)

(** X7: an inbound snapshot replaces the document wholesale: what it
    installs does not depend on the document held before, unsaved local
    edits are dropped, nothing but text, attachments and the unsaved
    flag changes, applying the same payload again changes nothing, and a
    payload that is not a string installs the empty document. *)
Theorem snapshot_replaces_document (p : payload) (s r : State) :
  let s' := state_after (onSyncData p) s in
  text s' = text (state_after (onSyncData p) r)
  /\ attachments s' = attachments (state_after (onSyncData p) r)
  /\ hasUnsavedChanges s' = false
  /\ s' = set_hasUnsavedChanges false
            (set_attachments (attachments s') (set_text (text s') s))
  /\ state_after (onSyncData p) s' = s'
  /\ effects_of (onSyncData p) s = []
  /\ outcome (onSyncData p) s = inl tt
  /\ (p = PNonString -> text s' = [] /\ attachments s' = []).
Proof.
  destruct p as [payload |].
  - destruct (inbound_payload_doc payload s) as [Hs _].
    destruct (inbound_payload_doc payload r) as [Hr _].
    destruct (exec_parts _ _ _ _ _ Hs) as (Es & El & Eo).
    destruct (exec_parts _ _ _ _ _ Hr) as (Er & _).
    destruct (inbound_payload_doc payload (state_after
                (onSyncData (PString payload)) s)) as [Hss _].
    destruct (exec_parts _ _ _ _ _ Hss) as (Ess & _).
    cbv zeta. rewrite Ess, El, Eo, Er, Es. simpl.
    repeat split; discriminate.
  - cbv zeta. repeat split.
Qed.

(** *** Uploads *)

(** A reaction whose handler leaves the room alone is its handler. *)
Lemma step_same_room (ev : event) (s : State) :
  roomCode (state_after (handler ev s) s) = roomCode s ->
  exec (dispatch ev s) s = exec (handler ev s) s.
Proof.
  intros H. apply dispatch_same_room; [| exact H].
  apply (handler_returns ev s s []).
Qed.

Lemma drop_last_reader (rs : list Reader) (rd : Reader) :
  firstn (List.length rs) (rs ++ [rd])
  ++ skipn (S (List.length rs)) (rs ++ [rd]) = rs.
Proof.
  induction rs as [| r rs IH]; [reflexivity |].
  simpl. f_equal. exact IH.
Qed.

Lemma nth_last_reader (rs : list Reader) (rd : Reader) :
  nth_error (rs ++ [rd]) (List.length rs) = Some rd.
Proof. induction rs as [| r rs IH]; [reflexivity | exact IH]. Qed.

Lemma exec_reader_load (s : State) (i : nat) (rd : Reader)
    (res id : jsstring) :
  nth_error (readers s) i = Some rd ->
  exec (dispatch (EvReaderLoad i (Some res) id) s) s
  = ((set_isUploading false
        (set_hasUnsavedChanges true
           (set_attachments
              (attachments s
               ++ [attachment_object
                     {| att_id := id; att_name := fname (rfile rd);
                        att_type := ftype (rfile rd);
                        att_dataUrl := res |}])
              (set_text
                 (if falsy (rtext rd) then snippet_of (rfile rd) res
                  else rtext rd ++ [10; 10] ++ snippet_of (rfile rd) res)
                 (drop_reader i s)))),
      [ResetInput]), inl tt).
Proof.
  intros Hi. rewrite step_same_room; run_m; rewrite Hi; reflexivity.
Qed.

(** X8: a file within the size limit is read, and what its load installs
    is the text of the moment the file was selected followed by the
    snippet: whatever was typed while the file was being read is
    overwritten.  The new attachment goes to the end of the list, the
    unsaved flag is set and the uploading flag cleared. *)
Theorem upload_overwrites_later_edits (s : State) (f : File)
    (typed res id : jsstring) :
  fsize f <= MAX_FILE_SIZE ->
  let s1 := step_state s (EvFileSelected (Some f)) in
  let s2 := step_state s1 (EvTextChange typed) in
  let s3 := step_state s2
              (EvReaderLoad (List.length (readers s)) (Some res) id) in
  effects_of (dispatch (EvFileSelected (Some f)) s) s = [ReadAsDataURL f]
  /\ isUploading s1 = true
  /\ text s2 = typed
  /\ text s3 = (if falsy (text s) then snippet_of f res
                else text s ++ [10; 10] ++ snippet_of f res)
  /\ attachments s3
     = attachments s
       ++ [attachment_object
             {| att_id := id; att_name := fname f; att_type := ftype f;
                att_dataUrl := res |}]
  /\ hasUnsavedChanges s3 = true /\ isUploading s3 = false
  /\ readers s3 = readers s.
Proof.
  intros Hsize s1 s2 s3.
  assert (Hlt : (MAX_FILE_SIZE <? fsize f) = false) by (apply N.ltb_ge; lia).
  assert (H1 : exec (dispatch (EvFileSelected (Some f)) s) s
               = ((set_readers (readers s ++ [{| rfile := f; rtext := text s |}])
                     (set_isUploading true s), [ReadAsDataURL f]), inl tt)).
  { rewrite step_same_room; run_m; rewrite Hlt; reflexivity. }
  assert (E1 : s1 = set_readers
                      (readers s ++ [{| rfile := f; rtext := text s |}])
                      (set_isUploading true s))
    by (unfold s1, step_state, state_after; now rewrite H1).
  assert (E2 : s2 = set_hasUnsavedChanges true (set_text typed s1)).
  { unfold s2, step_state, state_after.
    rewrite step_same_room; reflexivity. }
  assert (Hnth : nth_error (readers s2) (List.length (readers s))
                 = Some {| rfile := f; rtext := text s |}).
  { rewrite E2, E1. simpl. apply nth_last_reader. }
  unfold s3, step_state, state_after.
  rewrite (exec_reader_load _ _ _ _ _ Hnth).
  unfold effects_of. rewrite H1. rewrite E2, E1. simpl.
  rewrite drop_last_reader. repeat split.
Qed.

(** X9: the load of a file appends one attachment record, so a document
    made of attachment records stays one, and its payload installs, at
    any receiver, exactly the text and the attachments the uploader
    then holds. *)
Theorem uploaded_document_survives_wire (s receiver : State)
    (atts : list Attachment) (i : nat) (rd : Reader) (res id : jsstring) :
  attachments s = map attachment_object atts ->
  nth_error (readers s) i = Some rd ->
  let s' := step_state s (EvReaderLoad i (Some res) id) in
  let r' := state_after
              (onSyncData (PString (payload_of (text s') (attachments s'))))
              receiver in
  attachments s'
  = map attachment_object
      (atts ++ [{| att_id := id; att_name := fname (rfile rd);
                   att_type := ftype (rfile rd); att_dataUrl := res |}])
  /\ text r' = text s' /\ attachments r' = attachments s'
  /\ hasUnsavedChanges r' = false.
Proof.
  intros Hatts Hi s' r'.
  assert (Ea : attachments s'
               = map attachment_object
                   (atts ++ [{| att_id := id; att_name := fname (rfile rd);
                                att_type := ftype (rfile rd);
                                att_dataUrl := res |}])).
  { unfold s', step_state, state_after.
    rewrite (exec_reader_load s i rd res id Hi). simpl.
    now rewrite Hatts, map_app. }
  split; [exact Ea |].
  unfold r'. rewrite Ea.
  destruct (inbound_payload_doc
              (payload_of (text s')
                 (map attachment_object
                    (atts ++ [{| att_id := id; att_name := fname (rfile rd);
                                 att_type := ftype (rfile rd);
                                 att_dataUrl := res |}]))) receiver)
    as [H _].
  unfold state_after. rewrite H. unfold inbound_doc.
  rewrite JSON_parse_payload_of. simpl. repeat split.
Qed.

(** X10: a read that fails, or that yields something other than a
    string, leaves no partial state: text, attachments and the unsaved
    flag are as before, the uploading flag is cleared and the reader is
    forgotten; only the failure shows a notice. *)
Theorem failed_read_leaves_document (s : State) (i : nat) (rd : Reader)
    (id : jsstring) :
  nth_error (readers s) i = Some rd ->
  exec (dispatch (EvReaderError i) s) s
  = ((set_isUploading false (drop_reader i s),
      [Alert unreadable; ResetInput]), inl tt)
  /\ exec (dispatch (EvReaderLoad i None id) s) s
     = ((set_isUploading false (drop_reader i s), [ResetInput]), inl tt)
  /\ text (set_isUploading false (drop_reader i s)) = text s
  /\ attachments (set_isUploading false (drop_reader i s)) = attachments s
  /\ hasUnsavedChanges (set_isUploading false (drop_reader i s))
     = hasUnsavedChanges s
  /\ List.length (readers (drop_reader i s))
     = pred (List.length (readers s)).
Proof.
  intros Hi.
  assert (H1 : exec (handler (EvReaderError i) s) s
               = ((set_isUploading false (drop_reader i s),
                   [Alert unreadable; ResetInput]), inl tt))
    by (run_m; rewrite Hi; reflexivity).
  assert (H2 : exec (handler (EvReaderLoad i None id) s) s
               = ((set_isUploading false (drop_reader i s), [ResetInput]),
                  inl tt))
    by (run_m; rewrite Hi; reflexivity).
  split; [| split].
  - rewrite step_same_room; [exact H1 |]. unfold state_after. now rewrite H1.
  - rewrite step_same_room; [exact H2 |]. unfold state_after. now rewrite H2.
  - repeat split.
    assert (Hlt : (i < List.length (readers s))%nat)
      by (apply nth_error_Some; congruence).
    change (readers (drop_reader i s))
      with (firstn i (readers s) ++ skipn (S i) (readers s)).
    rewrite length_app, length_firstn, length_skipn. lia.
Qed.

(** *** Buttons *)

(** X11: in a reachable state each of the two buttons is enabled exactly
    when pressing it pushes something to the room; a press of the
    enabled Save button never meets the connection notice, and a press
    of a disabled button would change nothing. *)
Theorem buttons_match_handlers (s : State) :
  reachable s ->
  (canSave s = true <-> emitted (effects_of (dispatch EvSave s) s) <> [])
  /\ (canClear s = true
      <-> emitted (effects_of (dispatch EvClear s) s) <> [])
  /\ (canSave s = true ->
      ~ In (Alert notReady) (effects_of (dispatch EvSave s) s))
  /\ (canSave s = false -> state_after (dispatch EvSave s) s = s)
  /\ (canClear s = false -> state_after (dispatch EvClear s) s = s).
Proof.
  intros Hr. destruct (reachable_room_inv _ Hr) as (Hsock & _).
  unfold canSave, canClear, state_after, effects_of.
  rewrite dispatch_save, dispatch_clear, exec_handleSave, exec_handleClear.
  rewrite Hsock.
  destruct (hasUnsavedChanges s), (Status_eqb (status s) connected),
    (falsy (text s)), (Nat.eqb (List.length (attachments s)) 0),
    (saveTimerRef s); simpl;
    repeat split; try discriminate; try congruence; try tauto;
    intros H; try (now elim H); intuition discriminate.
Qed.

(** *** Codes as typed *)

Lemma toUpperCase_cons (c : code_unit) (t : jsstring) :
  toUpperCase upperNonAscii (c :: t)
  = if c <? 128 then
      (if is_lower c then c - 32 else c) :: toUpperCase upperNonAscii t
    else
      match t with
      | d :: t' =>
          if is_high c && is_low d
          then upperNonAscii [c; d] ++ toUpperCase upperNonAscii t'
          else upperNonAscii [c] ++ toUpperCase upperNonAscii t
      | [] => upperNonAscii [c]
      end.
Proof. reflexivity. Qed.

(** Upper-casing goes through a concatenation unless the cut falls
    inside a surrogate pair. *)
Lemma toUpperCase_app (n : nat) :
  forall a b : jsstring,
    (List.length a <= n)%nat -> starts_low b = false ->
    toUpperCase upperNonAscii (a ++ b)
    = toUpperCase upperNonAscii a ++ toUpperCase upperNonAscii b.
Proof.
  induction n as [| n IH]; intros a b Hlen Hb.
  - destruct a; [reflexivity | simpl in Hlen; lia].
  - destruct a as [| h a']; [reflexivity |]. simpl in Hlen.
    change ((h :: a') ++ b) with (h :: (a' ++ b)).
    rewrite (toUpperCase_cons h (a' ++ b)), (toUpperCase_cons h a').
    destruct (h <? 128).
    { rewrite IH by (lia || assumption). reflexivity. }
    destruct a' as [| d a''].
    + change ([] ++ b) with b. destruct b as [| d b'].
      * now rewrite app_nil_r.
      * simpl in Hb. now rewrite Hb, andb_false_r.
    + change ((d :: a'') ++ b) with (d :: (a'' ++ b)). cbv iota.
      simpl in Hlen. destruct (is_high h && is_low d).
      * rewrite IH by (lia || assumption). now rewrite app_assoc.
      * change (d :: (a'' ++ b)) with ((d :: a'') ++ b).
        rewrite (IH (d :: a'') b) by (simpl; lia || assumption).
        now rewrite app_assoc.
Qed.

Lemma ascii_not_low (c : code_unit) : c < 128 -> is_low c = false.
Proof.
  intros H. unfold is_low. apply andb_false_iff. left. apply N.leb_gt. lia.
Qed.

Lemma toUpperCase_ascii_cons (c : code_unit) (b : jsstring) :
  c < 128 ->
  toUpperCase upperNonAscii (c :: b)
  = (if is_lower c then c - 32 else c) :: toUpperCase upperNonAscii b.
Proof.
  intros H. simpl. apply N.ltb_lt in H. now rewrite H.
Qed.

Lemma lower_is_ascii (c : code_unit) :
  is_lower c = true ->
  c < 128 /\ c - 32 < 128 /\ is_lower (c - 32) = false.
Proof.
  unfold is_lower. intros H. apply andb_true_iff in H. destruct H as [H1 H2].
  apply N.leb_le in H1, H2. repeat split; try lia.
  apply andb_false_iff. left. apply N.leb_gt. lia.
Qed.

(** X12: what the code pipeline ignores.  The case of an ASCII letter
    does not matter; an ASCII character that is neither a letter nor a
    digit can be dropped (unless dropping it joins two surrogate
    halves); and once six code characters have been found nothing that
    follows matters. *)
Theorem normalize_ignores_case_and_punctuation (a b : jsstring)
    (c : code_unit) :
  (is_lower c = true ->
   normalize (a ++ c :: b) = normalize (a ++ (c - 32) :: b))
  /\ (c < 128 -> is_code_char c = false -> is_lower c = false ->
      starts_low b = false ->
      normalize (a ++ c :: b) = normalize (a ++ b))
  /\ (List.length (normalize a) = 6%nat -> starts_low b = false ->
      normalize (a ++ b) = normalize a).
Proof.
  unfold normalize, slice0, strip_non_code. split; [| split].
  - intros Hl. destruct (lower_is_ascii c Hl) as (H1 & H2 & H3).
    rewrite !(toUpperCase_app (List.length a))
      by (apply Nat.le_refl || (simpl; now apply ascii_not_low)).
    rewrite !toUpperCase_ascii_cons by assumption.
    now rewrite Hl, H3.
  - intros Hc Hcode Hl Hb.
    rewrite !(toUpperCase_app (List.length a))
      by (apply Nat.le_refl || assumption || (simpl; now apply ascii_not_low)).
    rewrite toUpperCase_ascii_cons by assumption.
    rewrite Hl, !filter_app. simpl. now rewrite Hcode.
  - intros Hsix Hb.
    rewrite (toUpperCase_app (List.length a)) by (apply Nat.le_refl || assumption).
    rewrite filter_app, firstn_app.
    rewrite length_firstn in Hsix.
    replace (6 - List.length (filter is_code_char (toUpperCase upperNonAscii a)))%nat
      with 0%nat by lia.
    simpl. now rewrite app_nil_r.
Qed.

(** *** The sharing server *)

(** X14: the address of the sharing server is never empty and a
    non-empty override is taken as it is; the two variants compute the
    same address unless the port variable is set to the empty string,
    in which case, without an override and in a browser, the
    attachment-aware variant ends the address at the colon where the
    minimal one appends 4000. *)
Theorem share_server_address (env : Env) (window : option Location) :
  SHARE_SERVER env window <> []
  /\ Minimal.SHARE_SERVER env window <> []
  /\ (forall u, VITE_SHARE_SERVER env = Some u -> u <> [] ->
                SHARE_SERVER env window = u
                /\ Minimal.SHARE_SERVER env window = u)
  /\ (VITE_SHARE_SERVER_PORT env <> Some [] ->
      SHARE_SERVER env window = Minimal.SHARE_SERVER env window)
  /\ (forall w, VITE_SHARE_SERVER_PORT env = Some [] ->
                (VITE_SHARE_SERVER env = None
                 \/ VITE_SHARE_SERVER env = Some []) ->
                window = Some w ->
                Minimal.SHARE_SERVER env window
                = SHARE_SERVER env window ++ lit "4000").
Proof.
  unfold SHARE_SERVER, Minimal.SHARE_SERVER.
  split; [| split; [| split; [| split]]].
  - destruct (VITE_SHARE_SERVER env) as [[| c u] |]; try discriminate;
      destruct window as [w |]; try discriminate;
      intros H; apply app_eq_nil in H; destruct H as [_ H];
      discriminate.
  - destruct (VITE_SHARE_SERVER env) as [[| c u] |]; try discriminate;
      destruct window as [w |]; try discriminate;
      intros H; apply app_eq_nil in H; destruct H as [_ H];
      discriminate.
  - intros u -> Hu. destruct u; [now elim Hu | now split].
  - intros Hp.
    destruct (VITE_SHARE_SERVER env) as [[| c u] |]; try reflexivity;
      destruct window as [w |]; try reflexivity;
      destruct (VITE_SHARE_SERVER_PORT env) as [[| c' p] |];
      try reflexivity; now elim Hp.
  - intros w -> [-> | ->] ->; rewrite app_nil_r;
      now rewrite <- !app_assoc.
Qed.

(** *** Edits made without a connection *)

(** The three events by which the bound channel reports its status. *)
Definition status_event (ev : event) : bool :=
  match ev with
  | EvConnect | EvDisconnect | EvConnectError => true
  | _ => false
  end.

(** Status events change the status and nothing else. *)
Lemma status_events_frame (evs : list event) (s : State) :
  forallb status_event evs = true ->
  fold_left step_state evs s
  = set_status (status (fold_left step_state evs s)) s.
Proof.
  revert s. induction evs as [| ev evs IH]; intros s Hall.
  - now destruct s.
  - simpl in Hall. apply andb_true_iff in Hall. destruct Hall as [Hev Hall].
    assert (E : exists st, step_state s ev = set_status st s).
    { unfold step_state, state_after.
      destruct ev; try discriminate; rewrite step_same_room;
        try reflexivity; now eexists. }
    destruct E as [st E]. simpl. rewrite E.
    rewrite (IH _ Hall) at 1. reflexivity.
Qed.

(** X15: an edit made in a reachable state without a live connection
    cannot be saved there: the save only shows the connection notice.
    The edit stays, unsaved, through any status reports of the channel,
    and a save on a live connection then pushes exactly it, once.  It is
    not safe, though: a snapshot that arrives first replaces it without
    any notice, the document is then what it would have been without
    the edit, and a save pushes nothing. *)
Theorem unsaved_edit_kept_until_snapshot (s : State) (value : jsstring)
    (evs : list event) (p : payload) :
  reachable s -> status s <> connected ->
  forallb status_event evs = true ->
  let s1 := step_state s (EvTextChange value) in
  let s2 := fold_left step_state evs s1 in
  let s3 := step_state s2 (EvSyncData p) in
  let pushed := payload_of value (attachments s) in
  exec (dispatch EvSave s1) s1 = ((s1, [Alert notReady]), inl tt)
  /\ text s2 = value /\ attachments s2 = attachments s
  /\ hasUnsavedChanges s2 = true
  /\ (status s2 <> connected ->
      exec (dispatch EvSave s2) s2 = ((s2, [Alert notReady]), inl tt))
  /\ (status s2 = connected ->
      emitted (effects_of (dispatch EvSave s2) s2) = [pushed]
      /\ hasUnsavedChanges (step_state s2 EvSave) = false
      /\ forall (atts : list Attachment) (receiver : State),
           attachments s = map attachment_object atts ->
           text (state_after (onSyncData (PString pushed)) receiver) = value)
  /\ effects_of (dispatch (EvSyncData p) s2) s2 = []
  /\ text s3 = text (step_state s (EvSyncData p))
  /\ attachments s3 = attachments (step_state s (EvSyncData p))
  /\ hasUnsavedChanges s3 = false
  /\ exec (dispatch EvSave s3) s3 = ((s3, []), inl tt).
Proof.
  intros Hr Hst Hall s1 s2 s3 pushed.
  destruct (reachable_room_inv _ Hr) as (Hsock & _).
  assert (E1 : s1 = set_hasUnsavedChanges true (set_text value s)).
  { unfold s1, step_state, state_after. rewrite step_same_room; reflexivity. }
  assert (E2 : s2 = set_status (status s2) s1).
  { unfold s2. apply status_events_frame. exact Hall. }
  assert (Hneq : Status_eqb (status s) connected = false).
  { destruct (Status_eqb (status s) connected) eqn:E; [| reflexivity].
    apply Status_eqb_eq in E. contradiction. }
  assert (Hin : forall r : State,
            exec (dispatch (EvSyncData p) r) r
            = exec (onSyncData p) r).
  { intros r. rewrite step_same_room; [reflexivity |].
    unfold state_after. simpl handler.
    destruct p as [payload |]; [| reflexivity].
    destruct (inbound_payload_doc payload r) as [H _]. now rewrite H. }
  assert (E3 : s3 = set_hasUnsavedChanges false
                      (set_attachments
                         (attachments (state_after (onSyncData p) s))
                         (set_text (text (state_after (onSyncData p) s)) s2))).
  { unfold s3, step_state, state_after. rewrite Hin.
    destruct p as [payload |]; [| reflexivity].
    destruct (inbound_payload_doc payload s2) as [H2 _].
    destruct (inbound_payload_doc payload s) as [H0 _].
    now rewrite H2, H0. }
  assert (E0 : step_state s (EvSyncData p) = state_after (onSyncData p) s).
  { unfold step_state, state_after. now rewrite Hin. }
  generalize dependent (status s2). intros st E2.
  split; [| split; [| split; [| split; [| split; [| split; [| split;
    [| split; [| split; [| split]]]]]]]]].
  - rewrite dispatch_save, exec_handleSave, E1. simpl. now rewrite Hneq.
  - now rewrite E2, E1.
  - now rewrite E2, E1.
  - now rewrite E2, E1.
  - intros Hs2.
    assert (Hn : Status_eqb st connected = false).
    { destruct (Status_eqb st connected) eqn:E; [| reflexivity].
      apply Status_eqb_eq in E. contradiction. }
    rewrite dispatch_save, exec_handleSave, E2, E1. simpl. now rewrite Hn.
  - intros Hs2. subst st. split; [| split].
    + unfold effects_of. rewrite dispatch_save, exec_handleSave, E2, E1.
      simpl. rewrite Hsock, emitted_app. simpl. now destruct (saveTimerRef s).
    + unfold step_state, state_after.
      rewrite dispatch_save, exec_handleSave, E2, E1. reflexivity.
    + intros atts receiver Hatts. unfold pushed. rewrite Hatts.
      now destruct (payload_installs value atts receiver) as (Ht & _).
  - unfold effects_of. rewrite Hin.
    destruct p as [payload |]; [| reflexivity].
    destruct (inbound_payload_doc payload s2) as [H _]. now rewrite H.
  - now rewrite E3, E0.
  - now rewrite E3, E0.
  - now rewrite E3.
  - rewrite dispatch_save, exec_handleSave, E3. reflexivity.
Qed.

End Runtime.


(* ================================================================== *)
(** ** Closed runs *)

#[local] Abbreviation step0 :=
  (step_state literal_number literal_value literal_text no_upper).
#[local] Abbreviation dispatch0 :=
  (dispatch literal_number literal_value literal_text no_upper).
#[local] Abbreviation reachable0 :=
  (reachable literal_number literal_value literal_text no_upper).
#[local] Abbreviation mounted0 := (mounted literal_number).
#[local] Abbreviation normalize0 := (normalize no_upper).
#[local] Abbreviation payload0 := (payload_of literal_number literal_text).
#[local] Abbreviation typed0 :=
  (typed_while_connecting literal_number literal_value literal_text no_upper).
#[local] Abbreviation edited0 :=
  (edited_while_connected literal_number literal_value literal_text no_upper).
#[local] Abbreviation joined0 :=
  (joined_remote literal_number literal_value literal_text no_upper).

Lemma typed_while_connecting_reachable : reachable0 typed0.
Proof. apply reach_step; [apply reach_mounted | reflexivity]. Qed.

Lemma edited_while_connected_reachable : reachable0 edited0.
Proof.
  apply reach_step; [| reflexivity].
  apply reach_step; [apply reach_mounted | reflexivity].
Qed.

Lemma joined_remote_reachable : reachable0 joined0.
Proof. apply reach_step; [apply reach_mounted | reflexivity]. Qed.

(** C2, as stated, fails: a two-letter input normalises to two
    characters, which is neither empty nor six long, and
    [startRemoteSession] joins with it. *)
Lemma normalize_short_code :
  normalize0 (lit "ab") = lit "AB"
  /\ ~ (normalize0 (lit "ab") = []
        \/ List.length (normalize0 (lit "ab")) = 6%nat)
  /\ sessionCode _
       (state_after
          (startRemoteSession literal_number no_upper
             (Some (JStr _ (lit "ab")))) mounted0)
     = lit "AB".
Proof.
  split; [reflexivity | split; [| reflexivity]].
  intros [H | H]; discriminate H.
Qed.


(** C6, as stated, fails: right after the mount a channel is bound and
    the document is empty, and clearing emits nothing. *)
Lemma clear_on_mounted_pushes_nothing :
  reachable0 mounted0
  /\ socketRef _ mounted0 = Some LOCAL_ROOM
  /\ effects_of (dispatch0 (EvClear _) mounted0) mounted0 = [].
Proof. split; [apply reach_mounted | split; reflexivity]. Qed.

(** C4 at a concrete state: unsaved text on a live connection is pushed
    once, letter by letter as the JSON object of the document, and the
    second save does nothing. *)
Lemma save_pushes_once_run :
  emitted (effects_of (dispatch0 (EvSave _) edited0)
             edited0)
  = [[123; 34] ++ lit "text" ++ [34; 58; 34] ++ lit "hi" ++ [34; 44; 34]
     ++ lit "attachments" ++ [34; 58; 91; 93; 125]]
  /\ text _ (state_after
               (onSyncData literal_number literal_value
                  (PString (payload0 (text _ edited0)
                              (attachments _ edited0))))
               mounted0)
     = lit "hi"
  /\ exec (dispatch0 (EvSave _) (step0 edited0 (EvSave _)))
          (step0 edited0 (EvSave _))
     = ((step0 edited0 (EvSave _), []), inl tt).
Proof.
  destruct (save_pushes_once _ _ _ _ _ edited_while_connected_reachable)
    as [_ H].
  destruct (H eq_refl eq_refl) as (H1 & _ & _ & H2 & _ & _ & _ & _ & H3).
  split; [exact H1 | split; [| exact H3]].
  exact (proj1 (H2 [] mounted0 eq_refl)).
Defined.

(** C6 (amended) at a concrete state: a typed document is cleared and
    the empty document pushed while the channel is still connecting. *)
Lemma clear_resets_and_pushes_run :
  text _ typed0 <> []
  /\ exec (dispatch0 (EvClear _) typed0)
          typed0
     = ((set_hasUnsavedChanges _ false
           (set_attachments _ []
              (set_text _ [] typed0)),
         [Emit LOCAL_ROOM (lit "update-data") (payload0 [] [])]),
        inl tt).
Proof.
  assert (Hne : text _ typed0 <> []) by discriminate.
  split; [exact Hne |].
  exact (proj1 (clear_resets_and_pushes _ _ _ _ _
                  typed_while_connecting_reachable (or_introl Hne))).
Defined.

(** C8 at a concrete file: the 6 MiB video of scenario 5. *)
Lemma oversize_file_rejected_run :
  MAX_FILE_SIZE < fsize six_mebibytes
  /\ exec (dispatch0 (EvFileSelected _ (Some six_mebibytes)) mounted0)
          mounted0
     = ((mounted0, [Alert tooLarge; ResetInput]), inl tt).
Proof.
  assert (Hbig : MAX_FILE_SIZE < fsize six_mebibytes) by reflexivity.
  split; [exact Hbig |].
  exact (proj2 (oversize_file_rejected _ literal_value literal_text no_upper
                  six_mebibytes mounted0 Hbig)).
Defined.

(** C10 at a concrete state: clearing right after the mount. *)
Lemma clear_on_empty_is_noop_run :
  text _ mounted0 = [] /\ attachments _ mounted0 = []
  /\ exec (dispatch0 (EvClear _) mounted0) mounted0 = ((mounted0, []), inl tt).
Proof.
  split; [reflexivity | split; [reflexivity |]].
  exact (clear_on_empty_is_noop _ literal_value literal_text no_upper
           mounted0 eq_refl eq_refl).
Defined.



(* ================================================================== *)
(** ** Closed runs of the further properties *)

#[local] Abbreviation code_typed0 :=
  (code_typed literal_number literal_value literal_text no_upper).
#[local] Abbreviation file_selected0 :=
  (file_selected literal_number literal_value literal_text no_upper).

Lemma mounted_reachable : reachable0 mounted0.
Proof. apply reach_mounted. Qed.

Lemma code_typed_reachable : reachable0 code_typed0.
Proof. apply reach_step; [apply reach_mounted | reflexivity]. Qed.

Lemma file_selected_reachable : reachable0 file_selected0.
Proof. apply reach_step; [apply reach_mounted | reflexivity]. Qed.

(** X1 at a concrete step: ending the session joined with [D9KLMN]. *)
Lemma one_channel_at_a_time_run :
  enabled _ (EvResetRemoteSession _) joined0 = true
  /\ channel_after (socketRef _ joined0)
       (effects_of (dispatch0 (EvResetRemoteSession _) joined0) joined0)
     = Some (Some LOCAL_ROOM).
Proof.
  split; [reflexivity |].
  exact (proj1 (one_channel_at_a_time _ _ _ _ joined0
                  (EvResetRemoteSession _) joined_remote_reachable
                  eq_refl)).
Defined.

(** X2 at a concrete state. *)
Lemma status_never_waiting_run :
  (status _ typed0 = connecting \/ status _ typed0 = connected
   \/ status _ typed0 = disconnected \/ status _ typed0 = error)
  /\ roomCode _ typed0 <> [].
Proof.
  exact (status_never_waiting _ _ _ _ typed0
           typed_while_connecting_reachable).
Defined.

(** X3 at a concrete state: the session joined with [D9KLMN]. *)
Lemma mode_follows_session_code_run :
  mode _ joined0 = remote /\ sessionCode _ joined0 = lit "D9KLMN"
  /\ normalize0 (manualCode _ joined0) = manualCode _ joined0.
Proof.
  destruct (mode_follows_session_code _ _ _ _ joined0
              joined_remote_reachable) as (_ & _ & H & _).
  split; [reflexivity | split; [reflexivity | exact H]].
Defined.

(** X4 at a concrete state: [d9-kl!mn] typed, then Join. *)
Lemma join_uses_shown_code_run :
  manualCode _ code_typed0 = lit "D9KLMN"
  /\ mode _ (step0 code_typed0 (EvJoinWithCode _)) = remote
  /\ sessionCode _ (step0 code_typed0 (EvJoinWithCode _)) = lit "D9KLMN"
  /\ socketRef _ (step0 code_typed0 (EvJoinWithCode _))
     = Some (lit "D9KLMN").
Proof.
  assert (Hne : manualCode _ code_typed0 <> []) by discriminate.
  destruct (join_uses_shown_code _ _ _ _ code_typed0 code_typed_reachable)
    as [_ H].
  destruct (H Hne) as (H1 & H2 & _ & H4 & _).
  split; [reflexivity | split; [exact H1 | split; [exact H2 | exact H4]]].
Defined.

(** X5 at a concrete state: a failed request right after the mount. *)
Lemma session_response_settles_run :
  isGenerating _ (step0 mounted0 (EvSessionResponse _ None)) = false
  /\ effects_of (handler literal_number literal_value literal_text no_upper
                   (EvSessionResponse _ None) mounted0) mounted0
     = [Alert generateFailed].
Proof.
  destruct (session_response_settles _ literal_value literal_text no_upper
              mounted0 None mounted_reachable) as (_ & H1 & _ & _ & _ & H2 & _).
  split; [exact H1 | exact H2].
Defined.

(** X6 at a concrete state: ending the session joined with [D9KLMN]. *)
Lemma reset_returns_to_local_run :
  mode _ joined0 = remote
  /\ effects_of (dispatch0 (EvResetRemoteSession _) joined0) joined0
     = [Disconnect (lit "D9KLMN"); Disconnect (lit "D9KLMN");
        Connect LOCAL_ROOM]
  /\ mode _ (step0 joined0 (EvResetRemoteSession _)) = local.
Proof.
  destruct (reset_returns_to_local _ _ _ _ joined0 joined_remote_reachable
              eq_refl) as (H1 & H2 & _).
  split; [reflexivity | split; [exact H1 | exact H2]].
Defined.

(** X8 at a concrete run: a 5 MiB image selected over an empty text,
    a note typed, then the load. *)
Lemma upload_overwrites_later_edits_run :
  fsize five_mebibytes <= MAX_FILE_SIZE
  /\ text _
       (step0 (step0 (step0 mounted0 (EvFileSelected _ (Some five_mebibytes)))
                 (EvTextChange _ (lit "note")))
          (EvReaderLoad _ 0 (Some (lit "data:image/png;base64,AA=="))
             (lit "id-1")))
     = lit "![photo.png](data:image/png;base64,AA==)".
Proof.
  assert (Hle : fsize five_mebibytes <= MAX_FILE_SIZE)
    by (intros H; discriminate H).
  split; [exact Hle |].
  destruct (upload_overwrites_later_edits _ literal_value literal_text
              no_upper mounted0 five_mebibytes (lit "note")
              (lit "data:image/png;base64,AA==") (lit "id-1") Hle)
    as (_ & _ & _ & H & _).
  exact H.
Defined.

(** X9 at a concrete state: the selected image loads into an empty
    document. *)
Lemma uploaded_document_survives_wire_run :
  attachments _ file_selected0 = map (attachment_object _) []
  /\ List.length
       (attachments _
          (step0 file_selected0
             (EvReaderLoad _ 0 (Some (lit "data:,")) (lit "id-1"))))
     = 1%nat.
Proof.
  split; [reflexivity |].
  destruct (uploaded_document_survives_wire _ literal_value literal_text
              no_upper file_selected0 mounted0 [] 0
              {| rfile := five_mebibytes; rtext := [] |}
              (lit "data:,") (lit "id-1") eq_refl eq_refl) as (H & _).
  rewrite H. reflexivity.
Defined.

(** X10 at a concrete state: the read of the selected image fails. *)
Lemma failed_read_leaves_document_run :
  nth_error (readers _ file_selected0) 0
  = Some {| rfile := five_mebibytes; rtext := [] |}
  /\ effects_of (dispatch0 (EvReaderError _ 0) file_selected0) file_selected0
     = [Alert unreadable; ResetInput].
Proof.
  split; [reflexivity |].
  destruct (failed_read_leaves_document _ literal_value literal_text
              no_upper file_selected0 0
              {| rfile := five_mebibytes; rtext := [] |} [] eq_refl)
    as (H & _).
  unfold effects_of. rewrite H. reflexivity.
Defined.

(** X11 at a concrete state: unsaved text on a live connection. *)
Lemma buttons_match_handlers_run :
  canSave _ edited0 = true /\ canClear _ edited0 = true
  /\ emitted (effects_of (dispatch0 (EvSave _) edited0) edited0) <> [].
Proof.
  destruct (buttons_match_handlers _ _ _ _ edited0
              edited_while_connected_reachable) as ((H & _) & _).
  split; [reflexivity | split; [reflexivity | exact (H eq_refl)]].
Defined.

(** X12 at a concrete code: the dash in [d9-kl] is ignored. *)
Lemma normalize_ignores_case_and_punctuation_run :
  normalize0 (lit "d9-kl") = normalize0 (lit "d9kl").
Proof.
  destruct (normalize_ignores_case_and_punctuation no_upper (lit "d9")
              (lit "kl") 45) as (_ & H & _).
  apply H; reflexivity.
Defined.

(** X15 at a concrete run: typed while connecting; the channel reports
    an error, then connects, and the save pushes the edit. *)
Lemma unsaved_edit_kept_until_snapshot_run :
  status _ mounted0 <> connected
  /\ forallb (status_event literal_number)
       [EvConnectError _; EvConnect _] = true
  /\ emitted
       (effects_of
          (dispatch0 (EvSave _)
             (fold_left step0 [EvConnectError _; EvConnect _]
                (step0 mounted0 (EvTextChange _ (lit "x")))))
          (fold_left step0 [EvConnectError _; EvConnect _]
             (step0 mounted0 (EvTextChange _ (lit "x")))))
     = [[123; 34] ++ lit "text" ++ [34; 58; 34] ++ lit "x" ++ [34; 44; 34]
        ++ lit "attachments" ++ [34; 58; 91; 93; 125]]
  /\ text _
       (step0
          (fold_left step0 [EvConnectError _; EvConnect _]
             (step0 mounted0 (EvTextChange _ (lit "x"))))
          (EvSyncData _ (PString (lit "theirs"))))
     = lit "theirs".
Proof.
  assert (Hst : status _ mounted0 <> connected) by discriminate.
  split; [exact Hst | split; [reflexivity |]].
  destruct (unsaved_edit_kept_until_snapshot _ literal_value literal_text
              no_upper mounted0 (lit "x") [EvConnectError _; EvConnect _]
              (PString (lit "theirs")) mounted_reachable Hst eq_refl)
    as (_ & _ & _ & _ & _ & H & _ & H3 & _).
  split; [exact (proj1 (H eq_refl)) | exact H3].
Defined.
